(** * book-manager: the book lifecycle, the store queries and the HTTP status mapping

    A shallow embedding of the Go packages [model], [repository], [usecase] and
    [handler] of the book-manager service, and the properties of its
    specification checked against it.

    Conventions of the embedding.
    - Go's [int] is a 64-bit integer; it is a [Z] here, and the places where the
      code does arithmetic that can leave the 64-bit range go through [wrap64].
    - [time.Time] is an instant, a [Z] counted from Go's zero [Time] (so the
      zero value is [0]); locations and the monotonic reading are not kept.
    - A nullable column / a Go pointer field is an [option].
    - The table [books] is the list of its rows in rowid order, together with
      the AUTOINCREMENT counter.  SQL text is not modelled as text: a WHERE
      clause is the list of its conditions, a SET clause the list of its
      assignments, both built in the order the Go code appends them.
    - What SQLite itself decides (the LIKE operator, the order of rows that
      ORDER BY leaves tied) is behind the interface [SqlEngine]. *)

From Stdlib Require Import ZArith List String Ascii Bool Lia Permutation Sorted.
Import ListNotations.
Local Open Scope string_scope.
Local Open Scope list_scope.
Local Open Scope Z_scope.

(** ** Package model *)

(** An instant.  The store keeps a date as text, written and read back by the
    driver; [Time] stands for the instants that are read back as they were
    written, as the readings of the program's clock are.  What is read back of
    another date sent by a client (a year before 0, a zone offset with
    seconds) is not modelled: the theorems on CreateBook and UpdateBook do
    not say what is stored for a date a client's request carries. *)
Definition Time := Z.

Definition ReadingStatus := string.
Definition StatusNotStarted : ReadingStatus := "not_started".
Definition StatusReading : ReadingStatus := "reading".
Definition StatusCompleted : ReadingStatus := "completed".
Definition StatusDropped : ReadingStatus := "dropped".

Module Book.
Record t : Type := mk {
  ID : Z;
  Title : string;
  Author : string;
  ISBN : string;
  Publisher : string;
  PublishedDate : option Time;
  PurchaseDate : Time;
  PurchasePrice : Z;
  Status : ReadingStatus;
  StartReadDate : option Time;
  EndReadDate : option Time;
  Rating : option Z;
  Notes : string;
  Tags : string;
  CreatedAt : Time;
  UpdatedAt : Time
}.
End Book.

Module CreateBookRequest.
Record t : Type := mk {
  Title : string;
  Author : string;
  ISBN : string;
  Publisher : string;
  PublishedDate : option Time;
  PurchaseDate : Time;
  PurchasePrice : Z;
  Tags : string;
  Notes : string
}.
End CreateBookRequest.

Module UpdateBookRequest.
Record t : Type := mk {
  Title : option string;
  Author : option string;
  ISBN : option string;
  Publisher : option string;
  PublishedDate : option Time;
  PurchasePrice : option Z;
  Status : option ReadingStatus;
  StartReadDate : option Time;
  EndReadDate : option Time;
  Rating : option Z;
  Notes : option string;
  Tags : option string
}.

(** The request whose twelve fields are all nil. *)
Definition empty : t :=
  mk None None None None None None None None None None None None.
End UpdateBookRequest.

Module BookFilter.
Record t : Type := mk {
  Status : option ReadingStatus;
  Author : option string;
  Publisher : option string;
  Tag : option string;
  Rating : option Z;
  Search : option string
}.
End BookFilter.

(** ** Errors

    The Go code builds every error with [fmt.Errorf]; there is one constructor
    per message it can produce on the paths modelled here. *)

Inductive error : Type :=
| ErrInvalidInput                 (* usecase.CreateBook: validator.Struct failed *)
| ErrFuturePurchaseDate           (* usecase.CreateBook: purchase date after now *)
| ErrInvalidID (id : Z)           (* usecase: id <= 0 *)
| ErrNotFound (id : Z)            (* repository.GetByID / Delete: no such row *)
| ErrAlreadyReading               (* usecase.StartReading *)
| ErrAlreadyCompleted             (* usecase.StartReading *)
| ErrNotReading                   (* usecase.FinishReading *)
| ErrRatingOutOfRange (r : Z)     (* usecase.UpdateBook / FinishReading *)
| ErrUpdateFailed.                (* repository.Update: the UPDATE statement was rejected *)

Inductive result (A : Type) : Type :=
| Ok (a : A)
| Err (e : error).
Arguments Ok {A} a.
Arguments Err {A} e.

(** ** Clock readings

    One record per request: what [time.Now()] returns in the usecase layer and
    in the repository layer, what [CURRENT_TIMESTAMP] is inside SQLite, and the
    first instant of the current month as [GetStatistics] computes it with
    [time.Date(now.Year(), now.Month(), 1, 0, 0, 0, 0, now.Location())]. *)

Record Clock : Type := mkClock {
  uc_now : Time;
  repo_now : Time;
  db_now : Time;
  month_start : Time
}.

(** ** The table [books] (migration.sql) *)

Record DB : Type := mkDB {
  rows : list Book.t;     (* in rowid order *)
  seq : Z                 (* sqlite_sequence: the largest rowid ever used *)
}.

Definition empty_db : DB := mkDB [] 0.

(** CHECK (status IN ('not_started', 'reading', 'completed', 'dropped')) *)
Definition check_status (s : ReadingStatus) : bool :=
  String.eqb s StatusNotStarted || String.eqb s StatusReading
  || String.eqb s StatusCompleted || String.eqb s StatusDropped.

(** CHECK (rating >= 1 AND rating <= 5); a NULL rating passes. *)
Definition check_rating (r : option Z) : bool :=
  match r with
  | None => true
  | Some v => (1 <=? v) && (v <=? 5)
  end.

Definition check_constraints (b : Book.t) : bool :=
  check_status (Book.Status b) && check_rating (Book.Rating b).

(** ** What the SQL engine decides

    [like text pattern] is the LIKE operator.  [order_by_created_at_desc] is
    the effect of [ORDER BY created_at DESC] on the rows that passed the WHERE
    clause, given in rowid order: SQL fixes that the outcome is a rearrangement
    of them with [created_at] never increasing, and nothing else. *)

Definition created_desc (a b : Book.t) : Prop :=
  Book.CreatedAt b <= Book.CreatedAt a.

Class SqlEngine : Type := {
  like : string -> string -> bool;
  order_by_created_at_desc : list Book.t -> list Book.t;
  order_by_perm : forall l, Permutation (order_by_created_at_desc l) l;
  order_by_sorted : forall l, StronglySorted created_desc (order_by_created_at_desc l)
}.

(** ** Package repository *)

(** A repository call reads and writes the table and returns a value or an
    error, as the Go methods return [(value, error)]. *)
Definition Repo (A : Type) : Type := DB -> result A * DB.

Definition ret {A : Type} (a : A) : Repo A := fun db => (Ok a, db).

Definition fail {A : Type} (e : error) : Repo A := fun db => (Err e, db).

Definition bind {A B : Type} (m : Repo A) (k : A -> Repo B) : Repo B :=
  fun db =>
    match m db with
    | (Ok a, db') => k a db'
    | (Err e, db') => (Err e, db')
    end.

Notation "x <- m ;; k" := (bind m (fun x => k))
  (at level 61, m at next level, right associativity).

(** One entry of the SET clause of [Update]: the column and the bound value. *)
Inductive assignment : Type :=
| SetTitle (v : string)
| SetAuthor (v : string)
| SetISBN (v : string)
| SetPublisher (v : string)
| SetPublishedDate (v : Time)
| SetPurchasePrice (v : Z)
| SetStatus (v : ReadingStatus)
| SetStartReadDate (v : Time)
| SetEndReadDate (v : Time)
| SetRating (v : Z)
| SetNotes (v : string)
| SetTags (v : string).

(** A bound date is kept as the instant it denotes (see [Time]). *)
Definition apply_assignment (a : assignment) (b : Book.t) : Book.t :=
  let '(id, ti, au, isb) := (Book.ID b, Book.Title b, Book.Author b, Book.ISBN b) in
  let '(pu, pd, pur, pp) :=
    (Book.Publisher b, Book.PublishedDate b, Book.PurchaseDate b, Book.PurchasePrice b) in
  let '(st, sd, ed, ra) :=
    (Book.Status b, Book.StartReadDate b, Book.EndReadDate b, Book.Rating b) in
  let '(no, ta, cr, up) := (Book.Notes b, Book.Tags b, Book.CreatedAt b, Book.UpdatedAt b) in
  match a with
  | SetTitle v => Book.mk id v au isb pu pd pur pp st sd ed ra no ta cr up
  | SetAuthor v => Book.mk id ti v isb pu pd pur pp st sd ed ra no ta cr up
  | SetISBN v => Book.mk id ti au v pu pd pur pp st sd ed ra no ta cr up
  | SetPublisher v => Book.mk id ti au isb v pd pur pp st sd ed ra no ta cr up
  | SetPublishedDate v => Book.mk id ti au isb pu (Some v) pur pp st sd ed ra no ta cr up
  | SetPurchasePrice v => Book.mk id ti au isb pu pd pur v st sd ed ra no ta cr up
  | SetStatus v => Book.mk id ti au isb pu pd pur pp v sd ed ra no ta cr up
  | SetStartReadDate v => Book.mk id ti au isb pu pd pur pp st (Some v) ed ra no ta cr up
  | SetEndReadDate v => Book.mk id ti au isb pu pd pur pp st sd (Some v) ra no ta cr up
  | SetRating v => Book.mk id ti au isb pu pd pur pp st sd ed (Some v) no ta cr up
  | SetNotes v => Book.mk id ti au isb pu pd pur pp st sd ed ra v ta cr up
  | SetTags v => Book.mk id ti au isb pu pd pur pp st sd ed ra no v cr up
  end.

(** The SET clause applied to a row, left to right. *)
Definition apply_parts (parts : list assignment) (b : Book.t) : Book.t :=
  fold_left (fun acc a => apply_assignment a acc) parts b.

(** Trigger [update_books_updated_at]:
    [UPDATE books SET updated_at = CURRENT_TIMESTAMP WHERE id = NEW.id]. *)
Definition touch_updated_at (ts : Time) (b : Book.t) : Book.t :=
  Book.mk (Book.ID b) (Book.Title b) (Book.Author b) (Book.ISBN b) (Book.Publisher b)
    (Book.PublishedDate b) (Book.PurchaseDate b) (Book.PurchasePrice b) (Book.Status b)
    (Book.StartReadDate b) (Book.EndReadDate b) (Book.Rating b) (Book.Notes b)
    (Book.Tags b) (Book.CreatedAt b) ts.

Definition has_id (id : Z) (b : Book.t) : bool := Book.ID b =? id.

(** The rowid AUTOINCREMENT hands out: one more than the largest rowid that ever
    was in the table. *)
Definition next_rowid (db : DB) : Z :=
  Z.max (seq db) (fold_right Z.max 0 (map Book.ID (rows db))) + 1.

(** [INSERT INTO books (title, author, isbn, publisher, published_date,
    purchase_date, purchase_price, tags, notes) VALUES (...)]: the columns not
    listed take their defaults (status 'not_started', the dates and the rating
    NULL, both timestamps CURRENT_TIMESTAMP).  Returns LastInsertId.  The two
    dates of the request are kept as the instants they denote (see [Time]). *)
Definition exec_insert (ts : Time) (req : CreateBookRequest.t) (db : DB) : Z * DB :=
  let id := next_rowid db in
  let row :=
    Book.mk id (CreateBookRequest.Title req) (CreateBookRequest.Author req)
      (CreateBookRequest.ISBN req) (CreateBookRequest.Publisher req)
      (CreateBookRequest.PublishedDate req) (CreateBookRequest.PurchaseDate req)
      (CreateBookRequest.PurchasePrice req) StatusNotStarted None None None
      (CreateBookRequest.Notes req) (CreateBookRequest.Tags req) ts ts in
  (id, mkDB (rows db ++ [row]) id).

(** [UPDATE books SET <parts> WHERE id = ?], then the trigger on each updated
    row.  The statement is atomic: when an updated row breaks a CHECK
    constraint nothing is written and the driver reports an error ([None]). *)
Definition exec_update (ts : Time) (parts : list assignment) (id : Z) (db : DB)
  : option DB :=
  if forallb (fun b => implb (has_id id b) (check_constraints (apply_parts parts b)))
       (rows db)
  then Some (mkDB (map (fun b => if has_id id b
                                 then touch_updated_at ts (apply_parts parts b)
                                 else b) (rows db))
                  (seq db))
  else None.

(** [DELETE FROM books WHERE id = ?]; returns RowsAffected. *)
Definition exec_delete (id : Z) (db : DB) : Z * DB :=
  let kept := filter (fun b => negb (has_id id b)) (rows db) in
  (Z.of_nat (List.length (rows db)) - Z.of_nat (List.length kept), mkDB kept (seq db)).

Definition GetByID (id : Z) : Repo Book.t :=
  fun db =>
    match find (has_id id) (rows db) with
    | Some b => (Ok b, db)
    | None => (Err (ErrNotFound id), db)
    end.

Definition Create (clk : Clock) (req : CreateBookRequest.t) : Repo Book.t :=
  fun db =>
    let '(id, db') := exec_insert (db_now clk) req db in
    GetByID id db'.

(** A condition of a WHERE clause, with its bound arguments. *)
Definition condition : Type := Book.t -> bool.

Definition opt_cond {A : Type} (o : option A) (c : A -> condition) : list condition :=
  match o with
  | Some v => [c v]
  | None => []
  end.

(** [rating = ?]: a NULL rating never compares equal. *)
Definition rating_is (v : Z) (b : Book.t) : bool :=
  match Book.Rating b with
  | Some r => r =? v
  | None => false
  end.

(** [" WHERE " + strings.Join(conditions, " AND ")], and no WHERE clause when
    there is no condition. *)
Definition select_where (conditions : list condition) (rs : list Book.t) : list Book.t :=
  match conditions with
  | [] => rs
  | _ => filter (fun b => forallb (fun c => c b) conditions) rs
  end.

Section Queries.
Context {E : SqlEngine}.

(** The conditions [List] appends, in its order. *)
Definition List_conditions (filter : option BookFilter.t) : list condition :=
  match filter with
  | None => []
  | Some f =>
      opt_cond (BookFilter.Status f) (fun v b => String.eqb (Book.Status b) v)
      ++ opt_cond (BookFilter.Author f) (fun v b => String.eqb (Book.Author b) v)
      ++ opt_cond (BookFilter.Publisher f) (fun v b => String.eqb (Book.Publisher b) v)
      ++ opt_cond (BookFilter.Rating f) rating_is
      ++ opt_cond (BookFilter.Tag f) (fun v b => like (Book.Tags b) ("%" ++ v ++ "%")%string)
      ++ opt_cond (BookFilter.Search f)
           (fun v b =>
              let searchTerm := ("%" ++ v ++ "%")%string in
              like (Book.Title b) searchTerm || like (Book.Author b) searchTerm)
  end.

Definition List (filter : option BookFilter.t) (limit offset : Z) : Repo (list Book.t) :=
  fun db =>
    let selected := select_where (List_conditions filter) (rows db) in
    let ordered := order_by_created_at_desc selected in
    let page :=
      if 0 <? limit
      then firstn (Z.to_nat limit)
             (if 0 <? offset then skipn (Z.to_nat offset) ordered else ordered)
      else ordered in
    (Ok page, db).

(** The conditions [Count] appends, in its order. *)
Definition Count_conditions (filter : option BookFilter.t) : list condition :=
  match filter with
  | None => []
  | Some f =>
      opt_cond (BookFilter.Status f) (fun v b => String.eqb (Book.Status b) v)
      ++ opt_cond (BookFilter.Author f) (fun v b => String.eqb (Book.Author b) v)
      ++ opt_cond (BookFilter.Publisher f) (fun v b => String.eqb (Book.Publisher b) v)
      ++ opt_cond (BookFilter.Rating f) rating_is
      ++ opt_cond (BookFilter.Tag f) (fun v b => like (Book.Tags b) ("%" ++ v ++ "%")%string)
      ++ opt_cond (BookFilter.Search f)
           (fun v b =>
              let searchTerm := ("%" ++ v ++ "%")%string in
              like (Book.Title b) searchTerm || like (Book.Author b) searchTerm)
  end.

Definition Count (filter : option BookFilter.t) : Repo Z :=
  fun db =>
    (Ok (Z.of_nat (List.length (select_where (Count_conditions filter) (rows db)))), db).

End Queries.

Definition opt_part {A : Type} (o : option A) (f : A -> assignment) : list assignment :=
  match o with
  | Some v => [f v]
  | None => []
  end.

Definition is_nil {A : Type} (o : option A) : bool :=
  match o with
  | Some _ => false
  | None => true
  end.

(** What [Update] appends inside [if req.Status != nil]: the status itself and
    the dates it stamps with its own [time.Now()]. *)
Definition status_parts (now : Time) (req : UpdateBookRequest.t) : list assignment :=
  match UpdateBookRequest.Status req with
  | None => []
  | Some st =>
      [SetStatus st]
      ++ (if String.eqb st StatusReading && is_nil (UpdateBookRequest.StartReadDate req)
          then [SetStartReadDate now] else [])
      ++ (if (String.eqb st StatusCompleted || String.eqb st StatusDropped)
             && is_nil (UpdateBookRequest.EndReadDate req)
          then [SetEndReadDate now] else [])
  end.

Definition setParts (now : Time) (req : UpdateBookRequest.t) : list assignment :=
  opt_part (UpdateBookRequest.Title req) SetTitle
  ++ opt_part (UpdateBookRequest.Author req) SetAuthor
  ++ opt_part (UpdateBookRequest.ISBN req) SetISBN
  ++ opt_part (UpdateBookRequest.Publisher req) SetPublisher
  ++ opt_part (UpdateBookRequest.PublishedDate req) SetPublishedDate
  ++ opt_part (UpdateBookRequest.PurchasePrice req) SetPurchasePrice
  ++ status_parts now req
  ++ opt_part (UpdateBookRequest.StartReadDate req) SetStartReadDate
  ++ opt_part (UpdateBookRequest.EndReadDate req) SetEndReadDate
  ++ opt_part (UpdateBookRequest.Rating req) SetRating
  ++ opt_part (UpdateBookRequest.Notes req) SetNotes
  ++ opt_part (UpdateBookRequest.Tags req) SetTags.

Definition Update (clk : Clock) (id : Z) (req : UpdateBookRequest.t) : Repo Book.t :=
  fun db =>
    let parts := setParts (repo_now clk) req in
    match parts with
    | [] => GetByID id db
    | _ =>
        match exec_update (db_now clk) parts id db with
        | None => (Err ErrUpdateFailed, db)
        | Some db' => GetByID id db'
        end
    end.

Definition Delete (id : Z) : Repo unit :=
  fun db =>
    let '(rowsAffected, db') := exec_delete id db in
    if rowsAffected =? 0 then (Err (ErrNotFound id), db') else (Ok tt, db').

(** ** Package usecase *)

(** Go's [int] arithmetic wraps around in 64 bits. *)
Definition wrap64 (z : Z) : Z := (z + 2 ^ 63) mod 2 ^ 64 - 2 ^ 63.

(** [validator.Struct] on a [CreateBookRequest]: the three fields tagged
    [validate:"required"] must differ from their zero value. *)
Definition validate_CreateBookRequest (req : CreateBookRequest.t) : bool :=
  negb (String.eqb (CreateBookRequest.Title req) "")
  && negb (String.eqb (CreateBookRequest.Author req) "")
  && negb (CreateBookRequest.PurchaseDate req =? 0).

(** [*rating < 1 || *rating > 5] *)
Definition rating_out_of_range (r : Z) : bool := (r <? 1) || (5 <? r).

Record BookStatistics : Type := mkStats {
  TotalBooks : Z;
  NotStartedBooks : Z;
  ReadingBooks : Z;
  CompletedBooks : Z;
  DroppedBooks : Z;
  TotalSpent : Z;
  (* [float64(ratingSum) / float64(ratingCount)], kept as the pair
     (ratingSum, ratingCount); nil when no book is rated *)
  AverageRating : option (Z * Z);
  BooksThisMonth : Z;
  CompletedThisMonth : Z
}.

(** The local variables of the loop of [GetStatistics] over all books. *)
Record totals : Type := mkTotals {
  totalSpent : Z;
  ratingSum : Z;
  ratingCount : Z;
  booksThisMonth : Z;
  completedThisMonth : Z
}.

(** [t.After(u) || t.Equal(u)] *)
Definition on_or_after (t u : Time) : bool := (u <? t) || (t =? u).

Definition stats_step (thisMonthStart : Time) (acc : totals) (book : Book.t) : totals :=
  mkTotals
    (wrap64 (totalSpent acc + Book.PurchasePrice book))
    (match Book.Rating book with
     | Some r => wrap64 (ratingSum acc + r)
     | None => ratingSum acc
     end)
    (match Book.Rating book with
     | Some _ => wrap64 (ratingCount acc + 1)
     | None => ratingCount acc
     end)
    (if on_or_after (Book.PurchaseDate book) thisMonthStart
     then wrap64 (booksThisMonth acc + 1) else booksThisMonth acc)
    (if match Book.EndReadDate book with
        | Some e => on_or_after e thisMonthStart
        | None => false
        end && String.eqb (Book.Status book) StatusCompleted
     then wrap64 (completedThisMonth acc + 1) else completedThisMonth acc).

Definition status_filter (s : ReadingStatus) : option BookFilter.t :=
  Some (BookFilter.mk (Some s) None None None None None).

Section Usecase.
Context {E : SqlEngine}.

Definition CreateBook (clk : Clock) (req : CreateBookRequest.t) : Repo Book.t :=
  if negb (validate_CreateBookRequest req) then fail ErrInvalidInput
  else if uc_now clk <? CreateBookRequest.PurchaseDate req then fail ErrFuturePurchaseDate
  else Create clk req.

Definition GetBook (id : Z) : Repo Book.t :=
  if id <=? 0 then fail (ErrInvalidID id) else GetByID id.

Definition ListBooks (filter : option BookFilter.t) (page limit : Z)
  : Repo (list Book.t * Z) :=
  let page := if page <? 1 then 1 else page in
  let limit := if (limit <? 1) || (100 <? limit) then 20 else limit in
  let offset := wrap64 ((page - 1) * limit) in
  books <- List filter limit offset ;;
  total <- Count filter ;;
  ret (books, total).

Definition UpdateBook (clk : Clock) (id : Z) (req : UpdateBookRequest.t) : Repo Book.t :=
  if id <=? 0 then fail (ErrInvalidID id)
  else
    _ <- GetByID id ;;
    match UpdateBookRequest.Rating req with
    | Some r =>
        if rating_out_of_range r then fail (ErrRatingOutOfRange r) else Update clk id req
    | None => Update clk id req
    end.

Definition DeleteBook (id : Z) : Repo unit :=
  if id <=? 0 then fail (ErrInvalidID id)
  else
    _ <- GetByID id ;;
    Delete id.

Definition StartReading (clk : Clock) (id : Z) : Repo Book.t :=
  if id <=? 0 then fail (ErrInvalidID id)
  else
    book <- GetByID id ;;
    if String.eqb (Book.Status book) StatusReading then fail ErrAlreadyReading
    else if String.eqb (Book.Status book) StatusCompleted then fail ErrAlreadyCompleted
    else
      let updateReq :=
        UpdateBookRequest.mk None None None None None None
          (Some StatusReading) (Some (uc_now clk)) None None None None in
      Update clk id updateReq.

Definition FinishReading (clk : Clock) (id : Z) (rating : option Z) : Repo Book.t :=
  if id <=? 0 then fail (ErrInvalidID id)
  else
    book <- GetByID id ;;
    if negb (String.eqb (Book.Status book) StatusReading) then fail ErrNotReading
    else
      let finish :=
        let updateReq :=
          UpdateBookRequest.mk None None None None None None
            (Some StatusCompleted) None (Some (uc_now clk)) rating None None in
        Update clk id updateReq in
      match rating with
      | Some r => if rating_out_of_range r then fail (ErrRatingOutOfRange r) else finish
      | None => finish
      end.

(** The four per-status counts are read one after the other; Go ranges over
    the map in no fixed order, which does not matter for reads. *)
Definition GetStatistics (clk : Clock) : Repo BookStatistics :=
  total <- Count None ;;
  notStarted <- Count (status_filter StatusNotStarted) ;;
  reading <- Count (status_filter StatusReading) ;;
  completed <- Count (status_filter StatusCompleted) ;;
  dropped <- Count (status_filter StatusDropped) ;;
  allBooks <- List None 0 0 ;;
  let acc := fold_left (stats_step (month_start clk)) allBooks (mkTotals 0 0 0 0 0) in
  ret (mkStats total notStarted reading completed dropped
         (totalSpent acc)
         (if 0 <? ratingCount acc then Some (ratingSum acc, ratingCount acc) else None)
         (booksThisMonth acc) (completedThisMonth acc)).

End Usecase.

(** ** Package handler *)

Definition StatusOK : Z := 200.
Definition StatusCreated : Z := 201.
Definition StatusBadRequest : Z := 400.
Definition StatusNotFound : Z := 404.
Definition StatusInternalServerError : Z := 500.

(** [strconv.Atoi]: an optional sign, then decimal digits accumulated in an
    unsigned 64-bit number.  A syntax error returns 0 and a range error the
    nearest bound, each with a non-nil error. *)
Inductive NumError : Type :=
| ErrSyntax
| ErrRange.

Inductive digits_result : Type :=
| DigitsOk (n : Z)
| DigitsSyntax
| DigitsRange.

Definition is_digit (c : ascii) : bool :=
  (48 <=? Z.of_nat (nat_of_ascii c)) && (Z.of_nat (nat_of_ascii c) <=? 57).

Fixpoint parse_digits (s : string) (n : Z) : digits_result :=
  match s with
  | EmptyString => DigitsOk n
  | String c s' =>
      if is_digit c
      then
        if 2 ^ 64 / 10 + 1 <=? n then DigitsRange
        else
          let n1 := n * 10 + (Z.of_nat (nat_of_ascii c) - 48) in
          if 2 ^ 64 - 1 <? n1 then DigitsRange else parse_digits s' n1
      else DigitsSyntax
  end.

Definition Atoi (s : string) : Z * option NumError :=
  match s with
  | EmptyString => (0, Some ErrSyntax)
  | String c s' =>
      let neg := Ascii.eqb c "-" in
      let digits := if neg || Ascii.eqb c "+" then s' else s in
      match digits with
      | EmptyString => (0, Some ErrSyntax)
      | _ =>
          match parse_digits digits 0 with
          | DigitsSyntax => (0, Some ErrSyntax)
          | DigitsRange => (if neg then - 2 ^ 63 else 2 ^ 63 - 1, Some ErrRange)
          | DigitsOk un =>
              if negb neg && (2 ^ 63 <=? un) then (2 ^ 63 - 1, Some ErrRange)
              else if neg && (2 ^ 63 <? un) then (- 2 ^ 63, Some ErrRange)
              else (if neg then - un else un, None)
          end
      end
  end.

(** Where the detail string of an error response comes from. *)
Inductive cause : Type :=
| FromAtoi (e : NumError)      (* the {id} path variable is not an int *)
| FromDecode                   (* json.Decoder.Decode failed *)
| FromUsecase (e : error).

Inductive payload : Type :=
| ErrorResponse (c : cause)
| BookData (b : Book.t)
| ListData (books : list Book.t) (total page limit totalPages : Z)
| StatisticsData (s : BookStatistics)
| NoData
| HealthData.

Record Response : Type := mkResponse {
  StatusCode : Z;
  Body : payload
}.

Definition sendErrorResponse (statusCode : Z) (c : cause) : Response :=
  mkResponse statusCode (ErrorResponse c).

Definition sendSuccessResponse (statusCode : Z) (data : payload) : Response :=
  mkResponse statusCode data.

(** A request body as the handler sees it: [r.ContentLength > 0] or not, and
    whether decoding it succeeds. *)
Inductive body (A : Type) : Type :=
| NoBody
| Malformed
| Decoded (a : A).
Arguments NoBody {A}.
Arguments Malformed {A}.
Arguments Decoded {A} a.

(** The query string of GET /books, each parameter as [query.Get] returns it
    (the empty string when absent). *)
Record ListQuery : Type := mkListQuery {
  q_page : string;
  q_limit : string;
  q_status : string;
  q_author : string;
  q_publisher : string;
  q_tag : string;
  q_search : string;
  q_rating : string
}.

Definition nonempty (s : string) : option string :=
  if String.eqb s "" then None else Some s.

Module Handler.
Section Handlers.
Context {E : SqlEngine}.

Definition CreateBook (clk : Clock) (req : option CreateBookRequest.t) (db : DB)
  : Response * DB :=
  match req with
  | None => (sendErrorResponse StatusBadRequest FromDecode, db)
  | Some req =>
      match CreateBook clk req db with
      | (Err e, db') => (sendErrorResponse StatusBadRequest (FromUsecase e), db')
      | (Ok book, db') => (sendSuccessResponse StatusCreated (BookData book), db')
      end
  end.

Definition GetBook (idStr : string) (db : DB) : Response * DB :=
  match Atoi idStr with
  | (_, Some err) => (sendErrorResponse StatusBadRequest (FromAtoi err), db)
  | (id, None) =>
      match GetBook id db with
      | (Err e, db') => (sendErrorResponse StatusNotFound (FromUsecase e), db')
      | (Ok book, db') => (sendSuccessResponse StatusOK (BookData book), db')
      end
  end.

(** The page, the limit and the filter [ListBooks] reads from the query string. *)
Definition page_of (query : ListQuery) : Z :=
  let page := fst (Atoi (q_page query)) in
  if page <? 1 then 1 else page.

Definition limit_of (query : ListQuery) : Z :=
  let limit := fst (Atoi (q_limit query)) in
  if (limit <? 1) || (100 <? limit) then 20 else limit.

Definition filter_of (query : ListQuery) : BookFilter.t :=
  BookFilter.mk
    (nonempty (q_status query))
    (nonempty (q_author query))
    (nonempty (q_publisher query))
    (nonempty (q_tag query))
    (if String.eqb (q_rating query) "" then None
     else match Atoi (q_rating query) with
          | (rating, None) =>
              if (1 <=? rating) && (rating <=? 5) then Some rating else None
          | (_, Some _) => None
          end)
    (nonempty (q_search query)).

Definition ListBooks (query : ListQuery) (db : DB) : Response * DB :=
  let page := page_of query in
  let limit := limit_of query in
  let filter := filter_of query in
  match ListBooks (Some filter) page limit db with
  | (Err e, db') => (sendErrorResponse StatusInternalServerError (FromUsecase e), db')
  | (Ok (books, total), db') =>
      let totalPages := Z.quot (wrap64 (wrap64 (total + limit) - 1)) limit in
      (sendSuccessResponse StatusOK (ListData books total page limit totalPages), db')
  end.

Definition UpdateBook (clk : Clock) (idStr : string) (req : option UpdateBookRequest.t)
  (db : DB) : Response * DB :=
  match Atoi idStr with
  | (_, Some err) => (sendErrorResponse StatusBadRequest (FromAtoi err), db)
  | (id, None) =>
      match req with
      | None => (sendErrorResponse StatusBadRequest FromDecode, db)
      | Some req =>
          match UpdateBook clk id req db with
          | (Err e, db') => (sendErrorResponse StatusBadRequest (FromUsecase e), db')
          | (Ok book, db') => (sendSuccessResponse StatusOK (BookData book), db')
          end
      end
  end.

Definition DeleteBook (idStr : string) (db : DB) : Response * DB :=
  match Atoi idStr with
  | (_, Some err) => (sendErrorResponse StatusBadRequest (FromAtoi err), db)
  | (id, None) =>
      match DeleteBook id db with
      | (Err e, db') => (sendErrorResponse StatusNotFound (FromUsecase e), db')
      | (Ok _, db') => (sendSuccessResponse StatusOK NoData, db')
      end
  end.

Definition StartReading (clk : Clock) (idStr : string) (db : DB) : Response * DB :=
  match Atoi idStr with
  | (_, Some err) => (sendErrorResponse StatusBadRequest (FromAtoi err), db)
  | (id, None) =>
      match StartReading clk id db with
      | (Err e, db') => (sendErrorResponse StatusBadRequest (FromUsecase e), db')
      | (Ok book, db') => (sendSuccessResponse StatusOK (BookData book), db')
      end
  end.

Definition FinishReading (clk : Clock) (idStr : string) (reqBody : body (option Z))
  (db : DB) : Response * DB :=
  match Atoi idStr with
  | (_, Some err) => (sendErrorResponse StatusBadRequest (FromAtoi err), db)
  | (id, None) =>
      match reqBody with
      | Malformed => (sendErrorResponse StatusBadRequest FromDecode, db)
      | _ =>
          let rating := match reqBody with Decoded r => r | _ => None end in
          match FinishReading clk id rating db with
          | (Err e, db') => (sendErrorResponse StatusBadRequest (FromUsecase e), db')
          | (Ok book, db') => (sendSuccessResponse StatusOK (BookData book), db')
          end
      end
  end.

Definition GetStatistics (clk : Clock) (db : DB) : Response * DB :=
  match GetStatistics clk db with
  | (Err e, db') => (sendErrorResponse StatusInternalServerError (FromUsecase e), db')
  | (Ok stats, db') => (sendSuccessResponse StatusOK (StatisticsData stats), db')
  end.

Definition Health : Response := sendSuccessResponse StatusOK HealthData.

End Handlers.
End Handler.

(** ** An executable engine

    An executable instance of [SqlEngine], to evaluate the program on concrete
    tables.  It implements LIKE the way SQLite does on ASCII text ('%' any
    run of characters, '_' one character, letters compared without case) and
    sorts the scanned rows by insertion, leaving rows of the same [created_at]
    in the order of the scan, which is the order SQLite's sorter yields. *)

Definition lower (c : ascii) : ascii :=
  let n := nat_of_ascii c in
  if (Nat.leb 65 n && Nat.leb n 90)%bool then ascii_of_nat (n + 32) else c.

Fixpoint like_pattern (p : string) : string -> bool :=
  match p with
  | EmptyString => fun t => match t with EmptyString => true | _ => false end
  | String c p' =>
      if Ascii.eqb c "%" then
        fix star (t : string) : bool :=
          like_pattern p' t
          || match t with EmptyString => false | String _ t' => star t' end
      else if Ascii.eqb c "_" then
        fun t => match t with EmptyString => false | String _ t' => like_pattern p' t' end
      else
        fun t =>
          match t with
          | EmptyString => false
          | String d t' => Ascii.eqb (lower c) (lower d) && like_pattern p' t'
          end
  end.

Definition sqlite_like (text pattern : string) : bool := like_pattern pattern text.

(** [insert_row_by stop x l] puts [x] in front of the first row [y] of [l]
    for which [stop (created_at y) (created_at x)] holds. *)
Fixpoint insert_row_by (stop : Z -> Z -> bool) (x : Book.t) (l : list Book.t)
  : list Book.t :=
  match l with
  | [] => [x]
  | y :: l' =>
      if stop (Book.CreatedAt y) (Book.CreatedAt x) then x :: l
      else y :: insert_row_by stop x l'
  end.

Definition sort_rows_by (stop : Z -> Z -> bool) (l : list Book.t) : list Book.t :=
  fold_right (insert_row_by stop) [] l.

Section InsertionSort.
Variable stop : Z -> Z -> bool.
Hypothesis stop_true : forall a b, stop a b = true -> a <= b.
Hypothesis stop_false : forall a b, stop a b = false -> b <= a.

Lemma insert_row_by_perm : forall x l, Permutation (insert_row_by stop x l) (x :: l).
Proof.
  intros x l; induction l as [|y l IH]; simpl.
  - apply Permutation_refl.
  - destruct (stop (Book.CreatedAt y) (Book.CreatedAt x)).
    + apply Permutation_refl.
    + eapply Permutation_trans; [apply perm_skip, IH | apply perm_swap].
Qed.

Lemma sort_rows_by_perm : forall l, Permutation (sort_rows_by stop l) l.
Proof.
  induction l as [|x l IH]; simpl.
  - constructor.
  - eapply Permutation_trans; [apply insert_row_by_perm | now apply perm_skip].
Qed.

Lemma insert_row_by_sorted : forall x l,
  StronglySorted created_desc l -> StronglySorted created_desc (insert_row_by stop x l).
Proof.
  intros x l; induction l as [|y l IH]; simpl; intros Hs.
  - repeat constructor.
  - inversion Hs as [|? ? Hl Hy]; subst.
    destruct (stop (Book.CreatedAt y) (Book.CreatedAt x)) eqn:Hc.
    + constructor; [assumption|].
      apply stop_true in Hc.
      constructor; [exact Hc|].
      eapply Forall_impl; [|exact Hy].
      unfold created_desc; intros; lia.
    + constructor; [now apply IH|].
      apply stop_false in Hc.
      eapply Permutation_Forall; [apply Permutation_sym, insert_row_by_perm|].
      constructor; assumption.
Qed.

Lemma sort_rows_by_sorted : forall l, StronglySorted created_desc (sort_rows_by stop l).
Proof.
  induction l as [|x l IH]; simpl.
  - constructor.
  - now apply insert_row_by_sorted.
Qed.

End InsertionSort.

(** Rows of equal [created_at] keep their rowid order. *)
Definition sort_keeping_ties : list Book.t -> list Book.t := sort_rows_by Z.leb.

Definition tie_keeping_engine : SqlEngine.
Proof.
  refine {| like := sqlite_like; order_by_created_at_desc := sort_keeping_ties |}.
  - apply sort_rows_by_perm.
  - apply sort_rows_by_sorted; intros a b H.
    + apply Z.leb_le in H; exact H.
    + apply Z.leb_gt in H; lia.
Defined.

(** ** The SET clause as a function of the request *)

Definition or_else {A : Type} (o : option A) (d : A) : A :=
  match o with
  | Some v => v
  | None => d
  end.

Definition or_keep {A : Type} (o : option A) (d : option A) : option A :=
  match o with
  | Some v => Some v
  | None => d
  end.

(** [Update] stamps the start date itself: status "reading", no start date given. *)
Definition stamps_start (req : UpdateBookRequest.t) : bool :=
  match UpdateBookRequest.Status req with
  | Some st => String.eqb st StatusReading && is_nil (UpdateBookRequest.StartReadDate req)
  | None => false
  end.

(** [Update] stamps the end date itself: status "completed" or "dropped", no
    end date given. *)
Definition stamps_end (req : UpdateBookRequest.t) : bool :=
  match UpdateBookRequest.Status req with
  | Some st =>
      (String.eqb st StatusCompleted || String.eqb st StatusDropped)
      && is_nil (UpdateBookRequest.EndReadDate req)
  | None => false
  end.

(** The row [UPDATE ... SET <setParts now req>] writes over [b], column by column. *)
Definition apply_req (now : Time) (req : UpdateBookRequest.t) (b : Book.t) : Book.t :=
  Book.mk (Book.ID b)
    (or_else (UpdateBookRequest.Title req) (Book.Title b))
    (or_else (UpdateBookRequest.Author req) (Book.Author b))
    (or_else (UpdateBookRequest.ISBN req) (Book.ISBN b))
    (or_else (UpdateBookRequest.Publisher req) (Book.Publisher b))
    (or_keep (UpdateBookRequest.PublishedDate req) (Book.PublishedDate b))
    (Book.PurchaseDate b)
    (or_else (UpdateBookRequest.PurchasePrice req) (Book.PurchasePrice b))
    (or_else (UpdateBookRequest.Status req) (Book.Status b))
    (or_keep (UpdateBookRequest.StartReadDate req)
       (if stamps_start req then Some now else Book.StartReadDate b))
    (or_keep (UpdateBookRequest.EndReadDate req)
       (if stamps_end req then Some now else Book.EndReadDate b))
    (or_keep (UpdateBookRequest.Rating req) (Book.Rating b))
    (or_else (UpdateBookRequest.Notes req) (Book.Notes b))
    (or_else (UpdateBookRequest.Tags req) (Book.Tags b))
    (Book.CreatedAt b) (Book.UpdatedAt b).

Lemma Book_eta : forall b : Book.t,
  b = Book.mk (Book.ID b) (Book.Title b) (Book.Author b) (Book.ISBN b) (Book.Publisher b)
        (Book.PublishedDate b) (Book.PurchaseDate b) (Book.PurchasePrice b)
        (Book.Status b) (Book.StartReadDate b) (Book.EndReadDate b) (Book.Rating b)
        (Book.Notes b) (Book.Tags b) (Book.CreatedAt b) (Book.UpdatedAt b).
Proof. now intros []. Qed.

Lemma Book_ext : forall a b : Book.t,
  Book.ID a = Book.ID b -> Book.Title a = Book.Title b ->
  Book.Author a = Book.Author b -> Book.ISBN a = Book.ISBN b ->
  Book.Publisher a = Book.Publisher b -> Book.PublishedDate a = Book.PublishedDate b ->
  Book.PurchaseDate a = Book.PurchaseDate b -> Book.PurchasePrice a = Book.PurchasePrice b ->
  Book.Status a = Book.Status b -> Book.StartReadDate a = Book.StartReadDate b ->
  Book.EndReadDate a = Book.EndReadDate b -> Book.Rating a = Book.Rating b ->
  Book.Notes a = Book.Notes b -> Book.Tags a = Book.Tags b ->
  Book.CreatedAt a = Book.CreatedAt b -> Book.UpdatedAt a = Book.UpdatedAt b ->
  a = b.
Proof. intros [] []; simpl; intros; subst; reflexivity. Qed.

Lemma apply_parts_app : forall p q b,
  apply_parts (p ++ q) b = apply_parts q (apply_parts p b).
Proof. intros; unfold apply_parts; apply fold_left_app. Qed.

Lemma apply_parts_nil : forall b, apply_parts [] b = b.
Proof. reflexivity. Qed.

Lemma apply_parts_one : forall a b, apply_parts [a] b = apply_assignment a b.
Proof. reflexivity. Qed.

(** The status block alone. *)
Lemma apply_status_parts : forall now req b,
  apply_parts (status_parts now req) b =
  Book.mk (Book.ID b) (Book.Title b) (Book.Author b) (Book.ISBN b) (Book.Publisher b)
    (Book.PublishedDate b) (Book.PurchaseDate b) (Book.PurchasePrice b)
    (or_else (UpdateBookRequest.Status req) (Book.Status b))
    (if stamps_start req then Some now else Book.StartReadDate b)
    (if stamps_end req then Some now else Book.EndReadDate b)
    (Book.Rating b) (Book.Notes b) (Book.Tags b) (Book.CreatedAt b) (Book.UpdatedAt b).
Proof.
  intros now req b; unfold status_parts, stamps_start, stamps_end.
  destruct (UpdateBookRequest.Status req) as [st|]; simpl.
  - destruct (String.eqb st StatusReading && is_nil (UpdateBookRequest.StartReadDate req))%bool;
      destruct ((String.eqb st StatusCompleted || String.eqb st StatusDropped)
                && is_nil (UpdateBookRequest.EndReadDate req))%bool;
      reflexivity.
  - apply Book_eta.
Qed.

Ltac one_column o :=
  destruct o; [rewrite apply_parts_one | rewrite apply_parts_nil]; cbn.

Theorem apply_parts_setParts : forall now req b,
  apply_parts (setParts now req) b = apply_req now req b.
Proof.
  intros now req b; unfold setParts.
  rewrite !apply_parts_app, apply_status_parts.
  unfold apply_req, opt_part.
  generalize (stamps_start req) (stamps_end req); intros s e.
  destruct req as [ti au isb pu pd pp st sd ed ra no ta]; cbn.
  one_column ti; one_column au; one_column isb; one_column pu;
    one_column pd; one_column pp.
  all: one_column sd; one_column ed; one_column ra; one_column no; one_column ta.
  all: reflexivity.
Qed.

(** ** Well-formed tables

    What the schema guarantees of every table: rowids are positive, strictly
    increasing in scan order and bounded by the AUTOINCREMENT counter, and every
    row passes the two CHECK constraints. *)

Definition id_lt (a b : Book.t) : Prop := Book.ID a < Book.ID b.

Record store_ok (db : DB) : Prop := mk_store_ok {
  ok_increasing : StronglySorted id_lt (rows db);
  ok_range : Forall (fun b => 0 < Book.ID b <= seq db) (rows db);
  ok_checks : Forall (fun b => check_constraints b = true) (rows db)
}.

Lemma empty_db_ok : store_ok empty_db.
Proof. split; simpl; constructor. Qed.

Lemma apply_assignment_ID : forall a b, Book.ID (apply_assignment a b) = Book.ID b.
Proof. now intros []. Qed.

Lemma apply_parts_ID : forall parts b, Book.ID (apply_parts parts b) = Book.ID b.
Proof.
  unfold apply_parts; induction parts as [|a parts IH]; intros b; simpl.
  - reflexivity.
  - now rewrite IH, apply_assignment_ID.
Qed.

Lemma StronglySorted_app_one : forall (l : list Book.t) x,
  StronglySorted id_lt l -> Forall (fun a => id_lt a x) l ->
  StronglySorted id_lt (l ++ [x]).
Proof.
  induction l as [|y l IH]; simpl; intros x Hs Hall.
  - repeat constructor.
  - inversion Hs; inversion Hall; subst.
    constructor; [now apply IH|].
    apply Forall_app; split; [assumption | now repeat constructor].
Qed.

Lemma StronglySorted_map_same_id : forall (f : Book.t -> Book.t) l,
  (forall b, Book.ID (f b) = Book.ID b) ->
  StronglySorted id_lt l -> StronglySorted id_lt (map f l).
Proof.
  intros f l Hf; induction 1 as [|x l Hs IH Hx]; simpl; constructor.
  - exact IH.
  - apply Forall_map; eapply Forall_impl; [|exact Hx].
    unfold id_lt; intros; now rewrite !Hf.
Qed.

Lemma StronglySorted_filter_rows : forall (R : Book.t -> Book.t -> Prop) p l,
  StronglySorted R l -> StronglySorted R (filter p l).
Proof.
  intros R p l; induction 1 as [|x l Hs IH Hx]; simpl.
  - constructor.
  - destruct (p x); [constructor|]; try assumption.
    apply Forall_forall; intros y Hy.
    apply filter_In in Hy as [Hy _].
    rewrite Forall_forall in Hx; now apply Hx.
Qed.

Lemma Forall_filter_rows : forall (P : Book.t -> Prop) p l,
  Forall P l -> Forall P (filter p l).
Proof.
  intros P p l H; apply Forall_forall; intros y Hy.
  apply filter_In in Hy as [Hy _]; rewrite Forall_forall in H; now apply H.
Qed.

(** AUTOINCREMENT never reuses a rowid: the fresh one is above every row. *)
Lemma next_rowid_fresh : forall db,
  store_ok db -> Forall (fun b => Book.ID b < next_rowid db) (rows db) /\ 0 < next_rowid db.
Proof.
  intros db [_ Hr _]; unfold next_rowid; split.
  - eapply Forall_impl; [|exact Hr]; simpl; intros; lia.
  - destruct (rows db) as [|x l]; simpl.
    + destruct (Z.max_spec (seq db) 0); lia.
    + inversion Hr; subst; lia.
Qed.

Lemma exec_insert_ok : forall ts req db,
  store_ok db -> store_ok (snd (exec_insert ts req db)).
Proof.
  intros ts req db Hok.
  destruct (next_rowid_fresh db Hok) as [Hfresh Hpos].
  destruct Hok as [Hs Hr Hc].
  unfold exec_insert; simpl; split; simpl.
  - apply StronglySorted_app_one; [exact Hs|].
    eapply Forall_impl; [|exact Hfresh]; unfold id_lt; simpl; intros; lia.
  - apply Forall_app; split.
    + rewrite Forall_forall in Hfresh, Hr |- *; intros b Hb.
      specialize (Hfresh b Hb); specialize (Hr b Hb); simpl in *; lia.
    + repeat constructor; simpl; lia.
  - apply Forall_app; split; [exact Hc | now repeat constructor].
Qed.

Lemma touch_updated_at_checks : forall ts b,
  check_constraints (touch_updated_at ts b) = check_constraints b.
Proof. reflexivity. Qed.

Lemma exec_update_ok : forall ts parts id db db',
  store_ok db -> exec_update ts parts id db = Some db' -> store_ok db'.
Proof.
  intros ts parts id db db' [Hs Hr Hc]; unfold exec_update.
  destruct (forallb _ (rows db)) eqn:Hall; [|discriminate].
  intros [= <-]; rewrite forallb_forall in Hall.
  assert (Hid : forall b, Book.ID (if has_id id b
                 then touch_updated_at ts (apply_parts parts b) else b) = Book.ID b).
  { intros b; destruct (has_id id b); [simpl; apply apply_parts_ID | reflexivity]. }
  split; simpl.
  - now apply StronglySorted_map_same_id.
  - apply Forall_map; eapply Forall_impl; [|exact Hr].
    simpl; intros b Hb; now rewrite Hid.
  - apply Forall_map; rewrite Forall_forall in Hc |- *; intros b Hb.
    specialize (Hall b Hb); specialize (Hc b Hb).
    destruct (has_id id b); simpl in Hall; [|exact Hc].
    now rewrite touch_updated_at_checks.
Qed.

Lemma exec_delete_ok : forall id db, store_ok db -> store_ok (snd (exec_delete id db)).
Proof.
  intros id db [Hs Hr Hc]; unfold exec_delete; split; simpl.
  - now apply StronglySorted_filter_rows.
  - now apply Forall_filter_rows.
  - now apply Forall_filter_rows.
Qed.

(** ** Looking a row up by id *)

Lemma find_has_id : forall id l b,
  find (has_id id) l = Some b -> In b l /\ Book.ID b = id.
Proof.
  intros id l b H; apply find_some in H as [Hin Hid]; split; [exact Hin|].
  now apply Z.eqb_eq in Hid.
Qed.

Lemma find_map_same_id : forall (f : Book.t -> Book.t) id l,
  (forall b, Book.ID (f b) = Book.ID b) ->
  find (has_id id) (map f l) = option_map f (find (has_id id) l).
Proof.
  intros f id l Hf; induction l as [|x l IH]; simpl; [reflexivity|].
  unfold has_id at 1; rewrite Hf; fold (has_id id x).
  destruct (has_id id x); [reflexivity | exact IH].
Qed.

(** Rowids are a key: at most one row answers to an id. *)
Lemma sorted_id_unique : forall id l b r,
  StronglySorted id_lt l -> find (has_id id) l = Some b ->
  In r l -> has_id id r = true -> r = b.
Proof.
  intros id l b r Hs; induction Hs as [|x l Hs IH Hx]; simpl; intros Hf Hin Hr.
  - contradiction.
  - apply Z.eqb_eq in Hr. rewrite Forall_forall in Hx.
    destruct (has_id id x) eqn:Hxid.
    + injection Hf as <-. apply Z.eqb_eq in Hxid.
      destruct Hin as [->|Hin]; [reflexivity|].
      specialize (Hx r Hin); unfold id_lt in Hx; lia.
    + destruct Hin as [->|Hin].
      * apply Z.eqb_neq in Hxid; contradiction.
      * apply IH; [exact Hf | exact Hin | now apply Z.eqb_eq].
Qed.

Lemma forallb_on_key : forall (P : Book.t -> bool) id l b,
  StronglySorted id_lt l -> find (has_id id) l = Some b ->
  forallb (fun r => implb (has_id id r) (P r)) l = P b.
Proof.
  intros P id l b Hs Hf.
  destruct (find_has_id _ _ _ Hf) as [Hin Hid].
  destruct (P b) eqn:HP.
  - apply forallb_forall; intros r Hr.
    destruct (has_id id r) eqn:Hrid; [simpl | reflexivity].
    now rewrite (sorted_id_unique id l b r Hs Hf Hr Hrid).
  - apply not_true_is_false; intros H.
    rewrite forallb_forall in H; specialize (H b Hin).
    unfold has_id in H; rewrite Hid, Z.eqb_refl, HP in H; discriminate.
Qed.

Lemma find_absent : forall id l,
  Forall (fun b => Book.ID b < id) l -> find (has_id id) l = None.
Proof.
  intros id l; induction 1 as [|x l Hx Hl IH]; simpl; [reflexivity|].
  unfold has_id at 1; destruct (Z.eqb_spec (Book.ID x) id); [lia | exact IH].
Qed.

Lemma find_app_last : forall id l x,
  find (has_id id) l = None -> has_id id x = true ->
  find (has_id id) (l ++ [x]) = Some x.
Proof.
  intros id l x; induction l as [|y l IH]; simpl; intros Hn Hx.
  - now rewrite Hx.
  - destruct (has_id id y); [discriminate | now apply IH].
Qed.

(** ** What each repository call does to a well-formed table *)

(** The rows [UPDATE ... WHERE id = ?] leaves behind. *)
Definition updated_rows (clk : Clock) (id : Z) (req : UpdateBookRequest.t) (db : DB) : DB :=
  mkDB (map (fun r => if has_id id r
                      then touch_updated_at (db_now clk)
                             (apply_parts (setParts (repo_now clk) req) r)
                      else r) (rows db))
       (seq db).

Lemma GetByID_found : forall id db b,
  find (has_id id) (rows db) = Some b -> GetByID id db = (Ok b, db).
Proof. intros id db b H; unfold GetByID; now rewrite H. Qed.

Lemma GetByID_inv : forall id db b db',
  GetByID id db = (Ok b, db') -> find (has_id id) (rows db) = Some b /\ db' = db.
Proof.
  unfold GetByID; intros id db b db'.
  destruct (find (has_id id) (rows db)); intros [= -> ->] || intros [=]; auto.
Qed.

Lemma Update_eq : forall clk id req db b,
  store_ok db -> find (has_id id) (rows db) = Some b ->
  Update clk id req db =
  match setParts (repo_now clk) req with
  | [] => (Ok b, db)
  | _ =>
      if check_constraints (apply_req (repo_now clk) req b)
      then (Ok (touch_updated_at (db_now clk) (apply_req (repo_now clk) req b)),
            updated_rows clk id req db)
      else (Err ErrUpdateFailed, db)
  end.
Proof.
  intros clk id req db b [Hs _ _] Hf; unfold Update.
  destruct (setParts (repo_now clk) req) as [|a parts] eqn:Hparts.
  - now apply GetByID_found.
  - unfold exec_update.
    rewrite (forallb_on_key (fun r => check_constraints (apply_parts (a :: parts) r))
               id (rows db) b Hs Hf).
    rewrite <- Hparts, apply_parts_setParts.
    destruct (check_constraints (apply_req (repo_now clk) req b)); [|reflexivity].
    unfold updated_rows; rewrite <- apply_parts_setParts.
    apply GetByID_found; simpl.
    rewrite find_map_same_id, Hf; simpl.
    + destruct (find_has_id _ _ _ Hf) as [_ Hid].
      unfold has_id; now rewrite Hid, Z.eqb_refl.
    + intros r; destruct (has_id id r); [simpl; apply apply_parts_ID | reflexivity].
Qed.

Lemma Create_eq : forall clk req db,
  store_ok db ->
  Create clk req db =
  (Ok (Book.mk (next_rowid db) (CreateBookRequest.Title req) (CreateBookRequest.Author req)
         (CreateBookRequest.ISBN req) (CreateBookRequest.Publisher req)
         (CreateBookRequest.PublishedDate req) (CreateBookRequest.PurchaseDate req)
         (CreateBookRequest.PurchasePrice req) StatusNotStarted None None None
         (CreateBookRequest.Notes req) (CreateBookRequest.Tags req)
         (db_now clk) (db_now clk)),
   snd (exec_insert (db_now clk) req db)).
Proof.
  intros clk req db Hok; unfold Create, exec_insert.
  apply GetByID_found; simpl.
  apply find_app_last.
  - apply find_absent, (next_rowid_fresh db Hok).
  - unfold has_id; simpl; apply Z.eqb_refl.
Qed.

(** ** Every call keeps the table well-formed *)

Definition preserves {A : Type} (m : Repo A) : Prop :=
  forall db, store_ok db -> store_ok (snd (m db)).

Lemma preserves_ret : forall A (a : A), preserves (ret a).
Proof. now intros A a db. Qed.

Lemma preserves_fail : forall A e, preserves (@fail A e).
Proof. now intros A e db. Qed.

Lemma preserves_bind : forall A B (m : Repo A) (k : A -> Repo B),
  preserves m -> (forall a, preserves (k a)) -> preserves (bind m k).
Proof.
  intros A B m k Hm Hk db Hok; unfold bind.
  specialize (Hm db Hok); destruct (m db) as [[a|e] db1]; simpl in *.
  - now apply Hk.
  - exact Hm.
Qed.

Lemma preserves_GetByID : forall id, preserves (GetByID id).
Proof.
  intros id db Hok; unfold GetByID.
  now destruct (find (has_id id) (rows db)).
Qed.

Lemma preserves_Create : forall clk req, preserves (Create clk req).
Proof.
  intros clk req db Hok; rewrite (Create_eq clk req db Hok); simpl.
  now apply exec_insert_ok.
Qed.

Lemma preserves_Update : forall clk id req, preserves (Update clk id req).
Proof.
  intros clk id req db Hok; unfold Update.
  destruct (setParts (repo_now clk) req) as [|a parts].
  - now apply preserves_GetByID.
  - destruct (exec_update (db_now clk) (a :: parts) id db) as [db'|] eqn:Hu.
    + apply preserves_GetByID; eapply exec_update_ok; eassumption.
    + exact Hok.
Qed.

Lemma preserves_Delete : forall id, preserves (Delete id).
Proof.
  intros id db Hok; unfold Delete.
  pose proof (exec_delete_ok id db Hok) as H.
  destruct (exec_delete id db) as [n db']; simpl in *.
  now destruct (n =? 0).
Qed.

Create HintDb preserve.
#[local] Hint Resolve preserves_ret preserves_fail preserves_bind preserves_GetByID
  preserves_Create preserves_Update preserves_Delete : preserve.

Ltac preserve_tac :=
  repeat match goal with
         | |- preserves (if ?c then _ else _) => destruct c
         | |- preserves (match ?o with Some _ => _ | None => _ end) => destruct o
         | |- forall _, _ => intro
         | |- preserves (bind _ _) => apply preserves_bind
         | |- _ => solve [auto with preserve]
         end.

Lemma preserves_CreateBook : forall clk req, preserves (CreateBook clk req).
Proof. intros; unfold CreateBook; preserve_tac. Qed.

Lemma preserves_UpdateBook : forall clk id req, preserves (UpdateBook clk id req).
Proof. intros; unfold UpdateBook; preserve_tac. Qed.

Lemma preserves_DeleteBook : forall id, preserves (DeleteBook id).
Proof. intros; unfold DeleteBook; preserve_tac. Qed.

Lemma preserves_StartReading : forall clk id, preserves (StartReading clk id).
Proof. intros; unfold StartReading; preserve_tac. Qed.

Lemma preserves_FinishReading : forall clk id rating, preserves (FinishReading clk id rating).
Proof. intros; unfold FinishReading; preserve_tac. Qed.

(** ** Reachable tables

    The mutating operations of the usecase layer, and the tables they lead to
    from the empty one.  A failed operation is a step too: it leaves whatever
    the call left. *)

Inductive op : Type :=
| OpCreateBook (req : CreateBookRequest.t)
| OpUpdateBook (id : Z) (req : UpdateBookRequest.t)
| OpDeleteBook (id : Z)
| OpStartReading (id : Z)
| OpFinishReading (id : Z) (rating : option Z).

Definition run_op (clk : Clock) (o : op) (db : DB) : DB :=
  match o with
  | OpCreateBook req => snd (CreateBook clk req db)
  | OpUpdateBook id req => snd (UpdateBook clk id req db)
  | OpDeleteBook id => snd (DeleteBook id db)
  | OpStartReading id => snd (StartReading clk id db)
  | OpFinishReading id rating => snd (FinishReading clk id rating db)
  end.

Inductive reachable : DB -> Prop :=
| reachable_empty : reachable empty_db
| reachable_step : forall clk o db, reachable db -> reachable (run_op clk o db).

Lemma run_op_ok : forall clk o db, store_ok db -> store_ok (run_op clk o db).
Proof.
  intros clk [req|id req|id|id|id rating] db Hok; simpl.
  - now apply preserves_CreateBook.
  - now apply preserves_UpdateBook.
  - now apply preserves_DeleteBook.
  - now apply preserves_StartReading.
  - now apply preserves_FinishReading.
Qed.

Theorem reachable_store_ok : forall db, reachable db -> store_ok db.
Proof.
  induction 1 as [|clk o db _ IH]; [apply empty_db_ok | now apply run_op_ok].
Qed.

Lemma store_ok_row : forall db id b,
  store_ok db -> find (has_id id) (rows db) = Some b ->
  0 < id /\ Book.ID b = id /\ check_status (Book.Status b) = true
  /\ check_rating (Book.Rating b) = true.
Proof.
  intros db id b [_ Hr Hc] Hf.
  destruct (find_has_id _ _ _ Hf) as [Hin Hid].
  rewrite Forall_forall in Hr, Hc.
  specialize (Hr b Hin); specialize (Hc b Hin).
  apply andb_prop in Hc as [Hc1 Hc2]; repeat split; try assumption; lia.
Qed.

Lemma find_updated_rows : forall clk id req db b,
  find (has_id id) (rows db) = Some b ->
  find (has_id id) (rows (updated_rows clk id req db)) =
  Some (touch_updated_at (db_now clk) (apply_req (repo_now clk) req b)).
Proof.
  intros clk id req db b Hf; unfold updated_rows; simpl.
  rewrite find_map_same_id, Hf; simpl.
  - destruct (find_has_id _ _ _ Hf) as [_ Hid].
    unfold has_id; now rewrite Hid, Z.eqb_refl, apply_parts_setParts.
  - intros r; destruct (has_id id r); [simpl; apply apply_parts_ID | reflexivity].
Qed.

(** ** The error kinds of the specification

    The Go code has no error types.  The specification names five kinds (its
    section 7) by the rule that was broken; [spec_error_kind] reads the kind off
    the rule that raised the error, and [spec_status_class] is the status class
    the specification assigns to each kind (section 4.3). *)

Inductive ErrorKind : Type :=
| BadRequest
| ValidationError
| BusinessRuleError
| InvalidArgument
| NotFound
| Unclassified.

Definition spec_error_kind (e : error) : ErrorKind :=
  match e with
  | ErrInvalidInput => ValidationError
  | ErrFuturePurchaseDate => BusinessRuleError
  | ErrInvalidID _ => InvalidArgument
  | ErrNotFound _ => NotFound
  | ErrAlreadyReading => BusinessRuleError
  | ErrAlreadyCompleted => BusinessRuleError
  | ErrNotReading => BusinessRuleError
  | ErrRatingOutOfRange _ => BusinessRuleError
  | ErrUpdateFailed => Unclassified
  end.




(** ** Sample data *)

Definition at_time (t : Time) : Clock := mkClock t t t 0.

Definition request_A : CreateBookRequest.t :=
  CreateBookRequest.mk "A" "B" "" "" None 1000 0 "" "".

(** One book, created at 2000 and not yet started. *)
Definition db_created : DB := run_op (at_time 2000) (OpCreateBook request_A) empty_db.

(** The same book, being read since 3000. *)
Definition db_reading : DB := run_op (at_time 3000) (OpStartReading 1) db_created.

Definition only_rating (r : Z) : UpdateBookRequest.t :=
  UpdateBookRequest.mk None None None None None None None None None (Some r) None None.

Definition only_status (s : ReadingStatus) : UpdateBookRequest.t :=
  UpdateBookRequest.mk None None None None None None (Some s) None None None None None.

(** The same book, rated 4 at 3500 while being read. *)
Definition db_reading_rated : DB :=
  run_op (at_time 3500) (OpUpdateBook 1 (only_rating 4)) db_reading.

Lemma db_created_reachable : reachable db_created.
Proof. apply reachable_step, reachable_empty. Qed.

Lemma db_reading_reachable : reachable db_reading.
Proof. apply reachable_step, db_created_reachable. Qed.

Lemma db_reading_rated_reachable : reachable db_reading_rated.
Proof. apply reachable_step, db_reading_reachable. Qed.

(** ** The usecase operations on a book that is in the table *)

(** The request [StartReading] hands to [Update]. *)
Definition start_request (now : Time) : UpdateBookRequest.t :=
  UpdateBookRequest.mk None None None None None None
    (Some StatusReading) (Some now) None None None None.

(** The request [FinishReading] hands to [Update]. *)
Definition finish_request (now : Time) (rating : option Z) : UpdateBookRequest.t :=
  UpdateBookRequest.mk None None None None None None
    (Some StatusCompleted) None (Some now) rating None None.

Lemma positive_id : forall id, 0 < id -> (id <=? 0) = false.
Proof. intros id H; apply Z.leb_gt; exact H. Qed.

Lemma rating_in_range : forall r,
  rating_out_of_range r = false <-> 1 <= r <= 5.
Proof.
  intros r; unfold rating_out_of_range.
  rewrite orb_false_iff, !Z.ltb_ge; lia.
Qed.

Lemma check_rating_Some : forall r, check_rating (Some r) = negb (rating_out_of_range r).
Proof.
  intros r; unfold check_rating, rating_out_of_range.
  destruct (Z.leb_spec 1 r), (Z.leb_spec r 5), (Z.ltb_spec r 1), (Z.ltb_spec 5 r);
    simpl; try reflexivity; lia.
Qed.

Lemma StartReading_found : forall clk db id b,
  store_ok db -> find (has_id id) (rows db) = Some b ->
  StartReading clk id db =
  if String.eqb (Book.Status b) StatusReading then (Err ErrAlreadyReading, db)
  else if String.eqb (Book.Status b) StatusCompleted then (Err ErrAlreadyCompleted, db)
  else (Ok (touch_updated_at (db_now clk)
              (apply_req (repo_now clk) (start_request (uc_now clk)) b)),
        updated_rows clk id (start_request (uc_now clk)) db).
Proof.
  intros clk db id b Hok Hf.
  destruct (store_ok_row db id b Hok Hf) as (Hpos & _ & _ & Hr).
  unfold StartReading, bind; rewrite (positive_id id Hpos), (GetByID_found id db b Hf).
  destruct (String.eqb (Book.Status b) StatusReading); [reflexivity|].
  destruct (String.eqb (Book.Status b) StatusCompleted); [reflexivity|].
  fold (start_request (uc_now clk)).
  rewrite (Update_eq clk id _ db b Hok Hf).
  cbn [setParts start_request opt_part status_parts app UpdateBookRequest.Title
       UpdateBookRequest.Author UpdateBookRequest.ISBN UpdateBookRequest.Publisher
       UpdateBookRequest.PublishedDate UpdateBookRequest.PurchasePrice
       UpdateBookRequest.Status].
  unfold check_constraints; cbn; now rewrite Hr.
Qed.

Lemma FinishReading_found : forall clk db id rating b,
  store_ok db -> find (has_id id) (rows db) = Some b ->
  FinishReading clk id rating db =
  if negb (String.eqb (Book.Status b) StatusReading) then (Err ErrNotReading, db)
  else
    match rating with
    | Some r =>
        if rating_out_of_range r then (Err (ErrRatingOutOfRange r), db)
        else (Ok (touch_updated_at (db_now clk)
                    (apply_req (repo_now clk) (finish_request (uc_now clk) (Some r)) b)),
              updated_rows clk id (finish_request (uc_now clk) (Some r)) db)
    | None =>
        (Ok (touch_updated_at (db_now clk)
               (apply_req (repo_now clk) (finish_request (uc_now clk) None) b)),
         updated_rows clk id (finish_request (uc_now clk) None) db)
    end.
Proof.
  intros clk db id rating b Hok Hf.
  destruct (store_ok_row db id b Hok Hf) as (Hpos & _ & _ & Hr).
  unfold FinishReading, bind; rewrite (positive_id id Hpos), (GetByID_found id db b Hf).
  destruct (negb (String.eqb (Book.Status b) StatusReading)); [reflexivity|].
  fold (finish_request (uc_now clk) rating).
  destruct rating as [r|].
  - destruct (rating_out_of_range r) eqn:Hrange; [reflexivity|].
    rewrite (Update_eq clk id _ db b Hok Hf).
    cbn [setParts finish_request opt_part status_parts app UpdateBookRequest.Title
         UpdateBookRequest.Author UpdateBookRequest.ISBN UpdateBookRequest.Publisher
         UpdateBookRequest.PublishedDate UpdateBookRequest.PurchasePrice
         UpdateBookRequest.Status].
    unfold check_constraints; cbn [apply_req Book.Status Book.Rating finish_request
      UpdateBookRequest.Status UpdateBookRequest.Rating or_else or_keep].
    now rewrite check_rating_Some, Hrange.
  - rewrite (Update_eq clk id _ db b Hok Hf).
    cbn [setParts finish_request opt_part status_parts app UpdateBookRequest.Title
         UpdateBookRequest.Author UpdateBookRequest.ISBN UpdateBookRequest.Publisher
         UpdateBookRequest.PublishedDate UpdateBookRequest.PurchasePrice
         UpdateBookRequest.Status].
    unfold check_constraints; cbn; now rewrite Hr.
Qed.

Lemma UpdateBook_found : forall clk db id req b,
  store_ok db -> find (has_id id) (rows db) = Some b ->
  UpdateBook clk id req db =
  match UpdateBookRequest.Rating req with
  | Some r => if rating_out_of_range r then (Err (ErrRatingOutOfRange r), db)
              else Update clk id req db
  | None => Update clk id req db
  end.
Proof.
  intros clk db id req b Hok Hf.
  destruct (store_ok_row db id b Hok Hf) as (Hpos & _).
  unfold UpdateBook, bind; rewrite (positive_id id Hpos), (GetByID_found id db b Hf).
  destruct (UpdateBookRequest.Rating req) as [r|]; [|reflexivity].
  now destruct (rating_out_of_range r).
Qed.

(** ** C1: start-reading *)

Definition book_created : Book.t :=
  Book.mk 1 "A" "B" "" "" None 1000 0 StatusNotStarted None None None "" "" 2000 2000.

Definition book_reading : Book.t :=
  Book.mk 1 "A" "B" "" "" None 1000 0 StatusReading (Some 3000) None None "" "" 2000 3000.

Lemma StartReading_blocked : forall clk db id b,
  store_ok db -> find (has_id id) (rows db) = Some b ->
  (Book.Status b = StatusReading -> StartReading clk id db = (Err ErrAlreadyReading, db))
  /\ (Book.Status b = StatusCompleted ->
      StartReading clk id db = (Err ErrAlreadyCompleted, db)).
Proof.
  intros clk db id b Hok Hf.
  rewrite (StartReading_found clk db id b Hok Hf).
  split; intros ->; reflexivity.
Qed.

(** C1.  For a book of the table whose status is not_started or dropped,
    StartReading succeeds: the book it returns (and stores) has status reading
    and start-read date equal to the time read by the usecase, and any further
    StartReading on the same id fails with a business-rule error.  For a book
    whose status is reading or completed, StartReading fails with a
    business-rule error and leaves the table as it was. *)
Theorem StartReading_guarded_transition : forall clk db id b,
  store_ok db -> find (has_id id) (rows db) = Some b ->
  (Book.Status b = StatusNotStarted \/ Book.Status b = StatusDropped ->
   exists b' db',
     StartReading clk id db = (Ok b', db')
     /\ Book.Status b' = StatusReading
     /\ Book.StartReadDate b' = Some (uc_now clk)
     /\ find (has_id id) (rows db') = Some b'
     /\ forall clk2, exists e,
          StartReading clk2 id db' = (Err e, db')
          /\ spec_error_kind e = BusinessRuleError)
  /\ (Book.Status b = StatusReading \/ Book.Status b = StatusCompleted ->
      exists e,
        StartReading clk id db = (Err e, db)
        /\ spec_error_kind e = BusinessRuleError).
Proof.
  intros clk db id b Hok Hf; split.
  - intros Hst.
    pose proof (preserves_StartReading clk id db Hok) as Hok'.
    rewrite (StartReading_found clk db id b Hok Hf) in Hok' |- *.
    assert (Hgo : String.eqb (Book.Status b) StatusReading = false
                  /\ String.eqb (Book.Status b) StatusCompleted = false)
      by (destruct Hst as [-> | ->]; split; reflexivity).
    destruct Hgo as [Hg1 Hg2]; rewrite Hg1, Hg2 in Hok' |- *; simpl in Hok'.
    pose proof (find_updated_rows clk id (start_request (uc_now clk)) db b Hf) as Hf'.
    eexists; eexists; split; [reflexivity|].
    split; [reflexivity|]. split; [reflexivity|]. split; [exact Hf'|].
    intros clk2; exists ErrAlreadyReading; split; [|reflexivity].
    now apply (StartReading_blocked clk2 _ id _ Hok' Hf').
  - intros [Hst | Hst].
    + exists ErrAlreadyReading; split; [|reflexivity].
      now apply (StartReading_blocked clk db id b Hok Hf).
    + exists ErrAlreadyCompleted; split; [|reflexivity].
      now apply (StartReading_blocked clk db id b Hok Hf).
Qed.

Lemma db_created_row : find (has_id 1) (rows db_created) = Some book_created.
Proof. reflexivity. Qed.

Lemma db_reading_row : find (has_id 1) (rows db_reading) = Some book_reading.
Proof. reflexivity. Qed.

Lemma StartReading_guarded_transition_witness :
  (exists b' db',
     StartReading (at_time 3000) 1 db_created = (Ok b', db')
     /\ Book.Status b' = StatusReading
     /\ Book.StartReadDate b' = Some 3000
     /\ find (has_id 1) (rows db') = Some b'
     /\ forall clk2, exists e,
          StartReading clk2 1 db' = (Err e, db')
          /\ spec_error_kind e = BusinessRuleError)
  /\ (exists e,
        StartReading (at_time 4000) 1 db_reading = (Err e, db_reading)
        /\ spec_error_kind e = BusinessRuleError).
Proof.
  split.
  - apply (StartReading_guarded_transition (at_time 3000) db_created 1 book_created
             (reachable_store_ok _ db_created_reachable) db_created_row).
    left; reflexivity.
  - apply (StartReading_guarded_transition (at_time 4000) db_reading 1 book_reading
             (reachable_store_ok _ db_reading_reachable) db_reading_row).
    left; reflexivity.
Defined.

(** ** C2: finish-reading *)

Definition book_reading_rated : Book.t :=
  Book.mk 1 "A" "B" "" "" None 1000 0 StatusReading (Some 3000) None (Some 4) "" "" 2000 3500.

Lemma db_reading_rated_row :
  find (has_id 1) (rows db_reading_rated) = Some book_reading_rated.
Proof. reflexivity. Qed.

Definition book_completed_rated : Book.t :=
  Book.mk 1 "A" "B" "" "" None 1000 0 StatusCompleted (Some 3000) (Some 5000) (Some 4)
    "" "" 2000 5000.

(** C2, as the claim states it, fails: this book is being read and was rated 4
    through an update; finishing it without a rating succeeds and the book keeps
    the rating 4, it does not come out unrated. *)
Lemma FinishReading_without_rating_keeps_rating :
  reachable db_reading_rated
  /\ find (has_id 1) (rows db_reading_rated) = Some book_reading_rated
  /\ Book.Status book_reading_rated = StatusReading
  /\ fst (FinishReading (at_time 5000) 1 None db_reading_rated) = Ok book_completed_rated
  /\ Book.Rating book_completed_rated = Some 4
  /\ Book.Rating book_completed_rated <> None.
Proof.
  split; [exact db_reading_rated_reachable|].
  repeat (split; [reflexivity|]).
  discriminate.
Qed.

(** C2, amended.  For a book of the table whose status is reading,
    FinishReading with no rating or a rating in 1..5 succeeds: the book it
    returns (and stores) has status completed, end-read date equal to the time
    read by the usecase, and the supplied rating; with no rating supplied the
    rating stays what it was (absent if it was absent).  FinishReading fails
    with a business-rule error, leaving the table as it was, when the status is
    not reading, and when the status is reading and the supplied rating is
    outside 1..5. *)
Theorem FinishReading_guarded_transition : forall clk db id rating b,
  store_ok db -> find (has_id id) (rows db) = Some b ->
  (Book.Status b = StatusReading ->
   match rating with Some r => 1 <= r <= 5 | None => True end ->
   exists b' db',
     FinishReading clk id rating db = (Ok b', db')
     /\ Book.Status b' = StatusCompleted
     /\ Book.EndReadDate b' = Some (uc_now clk)
     /\ Book.Rating b' = match rating with Some r => Some r | None => Book.Rating b end
     /\ find (has_id id) (rows db') = Some b')
  /\ (Book.Status b <> StatusReading ->
      exists e,
        FinishReading clk id rating db = (Err e, db)
        /\ spec_error_kind e = BusinessRuleError)
  /\ (forall r, rating = Some r -> ~ 1 <= r <= 5 ->
      exists e,
        FinishReading clk id rating db = (Err e, db)
        /\ spec_error_kind e = BusinessRuleError).
Proof.
  intros clk db id rating b Hok Hf.
  rewrite (FinishReading_found clk db id rating b Hok Hf).
  split; [|split].
  - intros Hst Hr; rewrite Hst; simpl negb; cbv iota.
    destruct rating as [r|].
    + apply rating_in_range in Hr; rewrite Hr.
      eexists; eexists; split; [reflexivity|].
      repeat (split; [reflexivity|]).
      exact (find_updated_rows clk id _ db b Hf).
    + eexists; eexists; split; [reflexivity|].
      repeat (split; [reflexivity|]).
      exact (find_updated_rows clk id _ db b Hf).
  - intros Hst; apply String.eqb_neq in Hst; rewrite Hst; simpl.
    exists ErrNotReading; split; reflexivity.
  - intros r -> Hr.
    destruct (negb (String.eqb (Book.Status b) StatusReading)).
    + exists ErrNotReading; split; reflexivity.
    + destruct (rating_out_of_range r) eqn:Hrange.
      * exists (ErrRatingOutOfRange r); split; reflexivity.
      * apply rating_in_range in Hrange; contradiction.
Qed.

Lemma FinishReading_guarded_transition_witness :
  (exists b' db',
     FinishReading (at_time 5000) 1 (Some 5) db_reading = (Ok b', db')
     /\ Book.Status b' = StatusCompleted
     /\ Book.EndReadDate b' = Some 5000
     /\ Book.Rating b' = Some 5
     /\ find (has_id 1) (rows db') = Some b')
  /\ (exists e,
        FinishReading (at_time 5000) 1 (Some 5) db_created = (Err e, db_created)
        /\ spec_error_kind e = BusinessRuleError)
  /\ (exists e,
        FinishReading (at_time 5000) 1 (Some 6) db_reading = (Err e, db_reading)
        /\ spec_error_kind e = BusinessRuleError).
Proof.
  split; [|split].
  - apply (FinishReading_guarded_transition (at_time 5000) db_reading 1 (Some 5)
             book_reading (reachable_store_ok _ db_reading_reachable) db_reading_row);
      [reflexivity | simpl; lia].
  - apply (FinishReading_guarded_transition (at_time 5000) db_created 1 (Some 5)
             book_created (reachable_store_ok _ db_created_reachable) db_created_row).
    discriminate.
  - apply (proj2 (proj2 (FinishReading_guarded_transition (at_time 5000) db_reading 1
             (Some 6) book_reading (reachable_store_ok _ db_reading_reachable)
             db_reading_row)) 6 eq_refl).
    lia.
Defined.

(** ** C3: List and Count *)

Section ListAndCount.
Context {E : SqlEngine}.

(** The WHERE clauses of the two queries are built from the same conditions. *)
Lemma List_Count_conditions : forall filter,
  List_conditions filter = Count_conditions filter.
Proof. intros [f|]; reflexivity. Qed.

(** Without a LIMIT the offset is not looked at. *)
Lemma List_unbounded : forall filter offset db,
  List filter 0 offset db =
  (Ok (order_by_created_at_desc (select_where (List_conditions filter) (rows db))), db).
Proof. reflexivity. Qed.

(** C3.  For every filter and every table, List with limit 0 (no LIMIT clause)
    and offset 0 returns as many books as Count returns for the same filter,
    and the two queries are built from the same list of conditions. *)
Theorem List_unbounded_agrees_with_Count : forall filter db,
  exists books n,
    List filter 0 0 db = (Ok books, db)
    /\ Count filter db = (Ok n, db)
    /\ Z.of_nat (List.length books) = n
    /\ List_conditions filter = Count_conditions filter.
Proof.
  intros filter db; rewrite List_unbounded; unfold Count.
  eexists; eexists; split; [reflexivity|]. split; [reflexivity|].
  split; [|apply List_Count_conditions].
  f_equal; rewrite <- (List_Count_conditions filter).
  apply Permutation_length, order_by_perm.
Qed.

End ListAndCount.

(** ** C4: statistics *)

Definition has_status (s : ReadingStatus) (b : Book.t) : bool :=
  forallb (fun c : condition => c b) [fun b => String.eqb (Book.Status b) s].

Lemma Count_by_status : forall (E : SqlEngine) s db,
  Count (status_filter s) db = (Ok (Z.of_nat (List.length (filter (has_status s) (rows db)))), db).
Proof. reflexivity. Qed.

Lemma Count_all : forall (E : SqlEngine) db,
  Count None db = (Ok (Z.of_nat (List.length (rows db))), db).
Proof. reflexivity. Qed.

Lemma check_status_cases : forall s,
  check_status s = true ->
  s = StatusNotStarted \/ s = StatusReading \/ s = StatusCompleted \/ s = StatusDropped.
Proof.
  unfold check_status; intros s H.
  repeat (apply orb_prop in H as [H|H]); apply String.eqb_eq in H; auto.
Qed.

Lemma has_status_eq : forall s b, has_status s b = String.eqb (Book.Status b) s.
Proof. intros; unfold has_status; simpl; apply andb_true_r. Qed.

Ltac eval_status_tests :=
  repeat match goal with
         | |- context [String.eqb ?a ?b] =>
             let v := eval vm_compute in (String.eqb a b) in
             change (String.eqb a b) with v
         end.

(** Under the CHECK constraint on [status] the four statuses split the rows. *)
Lemma rows_split_by_status : forall l,
  Forall (fun b => check_constraints b = true) l ->
  List.length l =
  (List.length (filter (has_status StatusNotStarted) l)
   + List.length (filter (has_status StatusReading) l)
   + List.length (filter (has_status StatusCompleted) l)
   + List.length (filter (has_status StatusDropped) l))%nat.
Proof.
  induction 1 as [|x l Hx Hl IH]; [reflexivity|].
  apply andb_prop in Hx as [Hx _]; apply check_status_cases in Hx.
  cbn [filter]; rewrite !has_status_eq.
  destruct Hx as [Hx | [Hx | [Hx | Hx]]]; rewrite Hx; eval_status_tests;
    cbn [List.length]; rewrite IH; lia.
Qed.

(** C4.  On every table that satisfies the schema's CHECK constraints,
    GetStatistics succeeds and its total_books is the sum of its four
    per-status counts. *)
Theorem GetStatistics_total_is_sum : forall (E : SqlEngine) clk db,
  store_ok db ->
  exists stats,
    GetStatistics clk db = (Ok stats, db)
    /\ TotalBooks stats =
       NotStartedBooks stats + ReadingBooks stats + CompletedBooks stats
       + DroppedBooks stats.
Proof.
  intros E clk db [_ _ Hc]; unfold GetStatistics, bind.
  rewrite Count_all, !Count_by_status, List_unbounded.
  eexists; split; [reflexivity|]; simpl.
  rewrite (rows_split_by_status (rows db) Hc); lia.
Qed.

Lemma GetStatistics_total_is_sum_witness :
  exists stats,
    GetStatistics (E := tie_keeping_engine) (at_time 6000) db_reading_rated
    = (Ok stats, db_reading_rated)
    /\ TotalBooks stats =
       NotStartedBooks stats + ReadingBooks stats + CompletedBooks stats
       + DroppedBooks stats.
Proof.
  exact (GetStatistics_total_is_sum tie_keeping_engine (at_time 6000) db_reading_rated
           (reachable_store_ok _ db_reading_rated_reachable)).
Defined.

(** ** C5: repeating a partial update *)

Lemma opt_part_nil : forall A (o : option A) f, opt_part o f = [] -> o = None.
Proof. intros A [v|] f H; [discriminate | reflexivity]. Qed.

Lemma status_parts_nil : forall now req,
  status_parts now req = [] -> UpdateBookRequest.Status req = None.
Proof.
  unfold status_parts; intros now req H.
  destruct (UpdateBookRequest.Status req); [discriminate | reflexivity].
Qed.

(** [len(setParts) == 0] exactly when every field of the request is nil. *)
Lemma setParts_nil : forall now req,
  setParts now req = [] <-> req = UpdateBookRequest.empty.
Proof.
  intros now req; split.
  - unfold setParts; intros H.
    repeat match type of H with
           | _ ++ _ = [] => apply app_eq_nil in H as [?H H]
           end.
    repeat match goal with
           | H0 : opt_part _ _ = [] |- _ => apply opt_part_nil in H0
           | H0 : status_parts _ _ = [] |- _ => apply status_parts_nil in H0
           end.
    destruct req; simpl in *; subst; reflexivity.
  - intros ->; reflexivity.
Qed.

Lemma setParts_nil_any_time : forall now now' req,
  setParts now req = [] -> setParts now' req = [].
Proof. intros now now' req H; apply setParts_nil; now apply setParts_nil in H. Qed.

(** The state a second, identical update leaves, in terms of the state [b1] the
    first one left: the trigger refreshes [updated_at] and a date that [Update]
    stamps on its own is stamped again. *)
Definition restamped (clk : Clock) (req : UpdateBookRequest.t) (b1 : Book.t) : Book.t :=
  Book.mk (Book.ID b1) (Book.Title b1) (Book.Author b1) (Book.ISBN b1) (Book.Publisher b1)
    (Book.PublishedDate b1) (Book.PurchaseDate b1) (Book.PurchasePrice b1) (Book.Status b1)
    (if stamps_start req then Some (repo_now clk) else Book.StartReadDate b1)
    (if stamps_end req then Some (repo_now clk) else Book.EndReadDate b1)
    (Book.Rating b1) (Book.Notes b1) (Book.Tags b1) (Book.CreatedAt b1)
    (match setParts (repo_now clk) req with
     | [] => Book.UpdatedAt b1
     | _ => db_now clk
     end).

Ltac book_fields :=
  cbn [touch_updated_at apply_req Book.ID Book.Title Book.Author Book.ISBN Book.Publisher
       Book.PublishedDate Book.PurchaseDate Book.PurchasePrice Book.Status
       Book.StartReadDate Book.EndReadDate Book.Rating Book.Notes Book.Tags
       Book.CreatedAt Book.UpdatedAt].

Ltac split_options :=
  repeat match goal with
         | |- context [or_else ?o _] => destruct o; cbn [or_else]
         | |- context [or_keep ?o _] => destruct o; cbn [or_keep is_nil]
         | |- context [match ?o with Some _ => _ | None => _ end] =>
             destruct o; cbn [is_nil]
         end;
  rewrite ?andb_false_r, ?andb_true_r;
  repeat match goal with
         | |- context [if ?c then _ else _] => destruct c
         end.

Lemma apply_req_again : forall n1 n2 ts1 ts2 req b0,
  touch_updated_at ts2 (apply_req n2 req (touch_updated_at ts1 (apply_req n1 req b0))) =
  let b1 := touch_updated_at ts1 (apply_req n1 req b0) in
  Book.mk (Book.ID b1) (Book.Title b1) (Book.Author b1) (Book.ISBN b1) (Book.Publisher b1)
    (Book.PublishedDate b1) (Book.PurchaseDate b1) (Book.PurchasePrice b1) (Book.Status b1)
    (if stamps_start req then Some n2 else Book.StartReadDate b1)
    (if stamps_end req then Some n2 else Book.EndReadDate b1)
    (Book.Rating b1) (Book.Notes b1) (Book.Tags b1) (Book.CreatedAt b1) ts2.
Proof.
  intros n1 n2 ts1 ts2 req b0; cbv zeta.
  apply Book_ext; book_fields; unfold stamps_start, stamps_end;
    try reflexivity; split_options; reflexivity.
Qed.

Lemma check_constraints_again : forall n1 n2 ts1 req b0,
  check_constraints (apply_req n2 req (touch_updated_at ts1 (apply_req n1 req b0))) =
  check_constraints (apply_req n1 req b0).
Proof.
  intros n1 n2 ts1 req b0; unfold check_constraints; cbn.
  destruct (UpdateBookRequest.Status req), (UpdateBookRequest.Rating req); reflexivity.
Qed.

Definition rating_accepted (req : UpdateBookRequest.t) : Prop :=
  forall r, UpdateBookRequest.Rating req = Some r -> rating_out_of_range r = false.

Lemma UpdateBook_Ok_Update : forall clk id req db b1 db1,
  UpdateBook clk id req db = (Ok b1, db1) ->
  Update clk id req db = (Ok b1, db1) /\ rating_accepted req
  /\ 0 < id /\ exists b0, find (has_id id) (rows db) = Some b0.
Proof.
  unfold UpdateBook, bind, GetByID, rating_accepted; intros clk id req db b1 db1.
  destruct (Z.leb_spec id 0) as [|Hpos]; [discriminate|].
  destruct (find (has_id id) (rows db)) as [b0|]; [|discriminate].
  destruct (UpdateBookRequest.Rating req) as [r|].
  - destruct (rating_out_of_range r) eqn:Hr; [discriminate|].
    intros H; repeat split; try assumption; [|now exists b0].
    now intros r' [= <-].
  - intros H; repeat split; try assumption; [discriminate | now exists b0].
Qed.

Lemma UpdateBook_is_Update : forall clk db id req b,
  store_ok db -> find (has_id id) (rows db) = Some b -> rating_accepted req ->
  UpdateBook clk id req db = Update clk id req db.
Proof.
  intros clk db id req b Hok Hf Hacc.
  rewrite (UpdateBook_found clk db id req b Hok Hf).
  unfold rating_accepted in Hacc.
  destruct (UpdateBookRequest.Rating req) as [r|]; [|reflexivity].
  now rewrite (Hacc r eq_refl).
Qed.

Lemma restamped_same_time : forall clk1 clk2 req b0,
  setParts (repo_now clk1) req <> [] ->
  repo_now clk2 = repo_now clk1 -> db_now clk2 = db_now clk1 ->
  restamped clk2 req (touch_updated_at (db_now clk1) (apply_req (repo_now clk1) req b0))
  = touch_updated_at (db_now clk1) (apply_req (repo_now clk1) req b0).
Proof.
  intros clk1 clk2 req b0 Hne Hn Ht; unfold restamped; rewrite Hn, Ht.
  destruct (setParts (repo_now clk1) req); [contradiction|].
  apply Book_ext; book_fields; unfold stamps_start, stamps_end;
    try reflexivity; split_options; reflexivity.
Qed.

(** C5, as the claim states it, fails: the same request (status := reading)
    applied at 3000 and again at 4000 leaves two different states of the book;
    the start-read date and updated-at follow the later application. *)
Lemma UpdateBook_repeated_differs :
  let req := only_status StatusReading in
  let first := UpdateBook (at_time 3000) 1 req db_created in
  let second := UpdateBook (at_time 4000) 1 req (snd first) in
  exists b1 b2,
    fst first = Ok b1 /\ fst second = Ok b2
    /\ Book.StartReadDate b1 = Some 3000 /\ Book.StartReadDate b2 = Some 4000
    /\ Book.UpdatedAt b1 = 3000 /\ Book.UpdatedAt b2 = 4000
    /\ b2 <> b1.
Proof.
  cbv zeta.
  exists (Book.mk 1 "A" "B" "" "" None 1000 0 StatusReading (Some 3000) None None
            "" "" 2000 3000),
         (Book.mk 1 "A" "B" "" "" None 1000 0 StatusReading (Some 4000) None None
            "" "" 2000 4000).
  repeat (split; [reflexivity|]); discriminate.
Qed.

(** C5, amended.  When UpdateBook(id, partial) has succeeded and is applied
    again with the same values, it succeeds again, and the book it returns
    equals the book of the first application in every field except: updated-at,
    which the trigger sets to the time of the second write (a request with
    every field absent writes nothing and changes nothing); the start-read
    date when the request sets status reading without a start-read date, and
    the end-read date when it sets status completed or dropped without an
    end-read date, which are stamped with the time of the second application.
    When both applications read the same times the two books are equal. *)
Theorem UpdateBook_repeated : forall clk1 clk2 db id req b1 db1,
  store_ok db ->
  UpdateBook clk1 id req db = (Ok b1, db1) ->
  exists db2,
    UpdateBook clk2 id req db1 = (Ok (restamped clk2 req b1), db2)
    /\ (repo_now clk2 = repo_now clk1 -> db_now clk2 = db_now clk1 ->
        restamped clk2 req b1 = b1).
Proof.
  intros clk1 clk2 db id req b1 db1 Hok H1.
  pose proof (preserves_UpdateBook clk1 id req db Hok) as Hok1.
  rewrite H1 in Hok1; simpl in Hok1.
  apply UpdateBook_Ok_Update in H1 as (H1 & Hacc & _ & b0 & Hf).
  rewrite (Update_eq clk1 id req db b0 Hok Hf) in H1.
  destruct (setParts (repo_now clk1) req) as [|a parts] eqn:Hp.
  - injection H1 as <- <-.
    apply setParts_nil in Hp; subst req.
    exists db; split.
    + rewrite (UpdateBook_is_Update clk2 db id _ b0 Hok Hf Hacc).
      rewrite (Update_eq clk2 id _ db b0 Hok Hf); simpl.
      f_equal; f_equal; apply Book_eta.
    + intros _ _; symmetry; apply Book_eta.
  - destruct (check_constraints (apply_req (repo_now clk1) req b0)) eqn:Hc;
      [|discriminate].
    injection H1 as <- <-.
    pose proof (find_updated_rows clk1 id req db b0 Hf) as Hf1.
    eexists; split.
    + rewrite (UpdateBook_is_Update clk2 _ id req _ Hok1 Hf1 Hacc).
      rewrite (Update_eq clk2 id req _ _ Hok1 Hf1).
      unfold restamped.
      destruct (setParts (repo_now clk2) req) as [|a2 parts2] eqn:Hp2.
      * apply (setParts_nil_any_time _ (repo_now clk1)) in Hp2; congruence.
      * rewrite check_constraints_again, Hc, apply_req_again; reflexivity.
    + intros Hn Ht; apply restamped_same_time; [congruence | exact Hn | exact Ht].
Qed.

Lemma UpdateBook_repeated_witness :
  exists db2,
    UpdateBook (at_time 4000) 1 (only_status StatusReading) db_reading
    = (Ok (restamped (at_time 4000) (only_status StatusReading) book_reading), db2)
    /\ (4000 = 3000 -> 4000 = 3000 ->
        restamped (at_time 4000) (only_status StatusReading) book_reading = book_reading).
Proof.
  apply (UpdateBook_repeated (at_time 3000) (at_time 4000) db_created 1
           (only_status StatusReading) book_reading db_reading
           (reachable_store_ok _ db_created_reachable)).
  reflexivity.
Defined.

(** ** C6: creating a book *)

(** The three required fields are present. *)
Definition required_present (req : CreateBookRequest.t) : Prop :=
  CreateBookRequest.Title req <> "" /\ CreateBookRequest.Author req <> ""
  /\ CreateBookRequest.PurchaseDate req <> 0.

Lemma validate_required : forall req,
  validate_CreateBookRequest req = true <-> required_present req.
Proof.
  intros req; unfold validate_CreateBookRequest, required_present.
  rewrite !andb_true_iff, !negb_true_iff, !String.eqb_neq, Z.eqb_neq; tauto.
Qed.

Definition request_future_no_title : CreateBookRequest.t :=
  CreateBookRequest.mk "" "B" "" "" None 9000 0 "" "".

(** C6, as the claim states it, fails: this request has its purchase date
    (9000) after the current time (2000) and an empty title; CreateBook rejects
    it as invalid input, a validation error, not a business-rule error. *)
Lemma CreateBook_future_date_validation_error :
  uc_now (at_time 2000) < CreateBookRequest.PurchaseDate request_future_no_title
  /\ CreateBook (at_time 2000) request_future_no_title empty_db
     = (Err ErrInvalidInput, empty_db)
  /\ spec_error_kind ErrInvalidInput = ValidationError
  /\ spec_error_kind ErrInvalidInput <> BusinessRuleError.
Proof.
  split; [reflexivity|]. split; [reflexivity|]. split; [reflexivity | discriminate].
Qed.

(** C6, amended.  A create request with non-empty title and author and a
    purchase date that is present and not after the current time succeeds, and
    the book returned (and stored) has status not_started and no read dates.
    A request whose purchase date is after the current time always fails and
    writes nothing: with a business-rule error when its required fields are
    present, with a validation error when one of them is missing. *)
Theorem CreateBook_new_book : forall clk req db,
  store_ok db ->
  (required_present req -> CreateBookRequest.PurchaseDate req <= uc_now clk ->
   exists b db',
     CreateBook clk req db = (Ok b, db')
     /\ Book.Status b = StatusNotStarted
     /\ Book.StartReadDate b = None /\ Book.EndReadDate b = None
     /\ find (has_id (Book.ID b)) (rows db') = Some b)
  /\ (uc_now clk < CreateBookRequest.PurchaseDate req ->
      exists e,
        CreateBook clk req db = (Err e, db)
        /\ (required_present req -> spec_error_kind e = BusinessRuleError)
        /\ (~ required_present req -> spec_error_kind e = ValidationError)).
Proof.
  intros clk req db Hok; unfold CreateBook; split.
  - intros Hreq Hdate; apply validate_required in Hreq; rewrite Hreq; simpl.
    destruct (Z.ltb_spec (uc_now clk) (CreateBookRequest.PurchaseDate req)); [lia|].
    pose proof (preserves_Create clk req db Hok) as Hok'.
    rewrite (Create_eq clk req db Hok) in Hok' |- *; simpl in Hok'.
    eexists; eexists; split; [reflexivity|].
    repeat (split; [reflexivity|]).
    cbn [Book.ID exec_insert snd rows].
    apply find_app_last.
    + apply find_absent, (next_rowid_fresh db Hok).
    + apply Z.eqb_refl.
  - intros Hdate.
    destruct (validate_CreateBookRequest req) eqn:Hv; simpl.
    + apply Z.ltb_lt in Hdate; rewrite Hdate.
      exists ErrFuturePurchaseDate; split; [reflexivity|]; split; [reflexivity|].
      intros Hno; apply validate_required in Hv; contradiction.
    + exists ErrInvalidInput; split; [reflexivity|]; split; [|reflexivity].
      intros Hyes; apply validate_required in Hyes; congruence.
Qed.

Lemma request_A_required : required_present request_A.
Proof. repeat split; discriminate. Qed.

Definition request_future : CreateBookRequest.t :=
  CreateBookRequest.mk "A" "B" "" "" None 9000 0 "" "".

Lemma CreateBook_new_book_witness :
  (exists b db',
     CreateBook (at_time 2000) request_A empty_db = (Ok b, db')
     /\ Book.Status b = StatusNotStarted
     /\ Book.StartReadDate b = None /\ Book.EndReadDate b = None
     /\ find (has_id (Book.ID b)) (rows db') = Some b)
  /\ (exists e,
        CreateBook (at_time 2000) request_future empty_db = (Err e, empty_db)
        /\ (required_present request_future -> spec_error_kind e = BusinessRuleError)
        /\ (~ required_present request_future -> spec_error_kind e = ValidationError)).
Proof.
  split.
  - apply (CreateBook_new_book (at_time 2000) request_A empty_db empty_db_ok).
    + exact request_A_required.
    + simpl; lia.
  - apply (CreateBook_new_book (at_time 2000) request_future empty_db empty_db_ok).
    simpl; lia.
Defined.

(** ** C7: ratings and statuses *)

Definition db_unread_rated : DB :=
  run_op (at_time 2500) (OpUpdateBook 1 (only_rating 3)) db_created.

Definition book_unread_rated : Book.t :=
  Book.mk 1 "A" "B" "" "" None 1000 0 StatusNotStarted None None (Some 3) "" "" 2000 2500.

(** C7, as the claim states it, fails: create a book and send the update
    {rating: 3}; the table then holds a book that is rated and not started. *)
Lemma rating_persisted_on_not_started_book :
  reachable db_unread_rated
  /\ fst (UpdateBook (at_time 2500) 1 (only_rating 3) db_created) = Ok book_unread_rated
  /\ find (has_id 1) (rows db_unread_rated) = Some book_unread_rated
  /\ Book.Rating book_unread_rated = Some 3
  /\ Book.Status book_unread_rated = StatusNotStarted
  /\ ~ (Book.Status book_unread_rated = StatusReading
        \/ Book.Status book_unread_rated = StatusCompleted
        \/ Book.Status book_unread_rated = StatusDropped).
Proof.
  split; [apply reachable_step, db_created_reachable|].
  repeat (split; [reflexivity|]).
  intros [H | [H | H]]; discriminate.
Qed.

(** What a call that goes through [Update] leaves in the table. *)
Lemma Update_db : forall clk id req db,
  snd (Update clk id req db) = db
  \/ snd (Update clk id req db) = updated_rows clk id req db.
Proof.
  intros clk id req db; unfold Update, updated_rows.
  destruct (setParts (repo_now clk) req) as [|a parts] eqn:Hp.
  - left; unfold GetByID; now destruct (find (has_id id) (rows db)).
  - unfold exec_update.
    destruct (forallb _ (rows db)); [right | now left].
    unfold GetByID; simpl.
    now destruct (find (has_id id) _).
Qed.

Ltac through_Update :=
  unfold bind, fail, GetByID;
  repeat match goal with
         | |- context [if ?c then _ else _] => destruct c; simpl; auto
         | |- context [match find ?p ?l with Some _ => _ | None => _ end] =>
             destruct (find p l); simpl; auto
         | |- context [match ?o with Some _ => _ | None => _ end] =>
             destruct o; simpl; auto
         end;
  try apply Update_db.

Lemma UpdateBook_db : forall clk id req db,
  snd (UpdateBook clk id req db) = db
  \/ snd (UpdateBook clk id req db) = updated_rows clk id req db.
Proof. intros; unfold UpdateBook; through_Update. Qed.

Lemma StartReading_db : forall clk id db,
  snd (StartReading clk id db) = db
  \/ snd (StartReading clk id db) = updated_rows clk id (start_request (uc_now clk)) db.
Proof. intros; unfold StartReading; through_Update. Qed.

Lemma FinishReading_db : forall clk id rating db,
  snd (FinishReading clk id rating db) = db
  \/ snd (FinishReading clk id rating db)
     = updated_rows clk id (finish_request (uc_now clk) rating) db.
Proof. intros; unfold FinishReading; through_Update. Qed.

Lemma DeleteBook_rows : forall id db,
  rows (snd (DeleteBook id db)) = rows db
  \/ rows (snd (DeleteBook id db)) = filter (fun b => negb (has_id id b)) (rows db).
Proof.
  intros id db; unfold DeleteBook, bind, fail, GetByID, Delete.
  destruct (id <=? 0); simpl; auto.
  destruct (find (has_id id) (rows db)); simpl; auto.
  destruct (_ =? 0); simpl; auto.
Qed.

Lemma CreateBook_rows : forall clk req db,
  rows (snd (CreateBook clk req db)) = rows db
  \/ exists row,
       rows (snd (CreateBook clk req db)) = rows db ++ [row]
       /\ Book.Status row = StatusNotStarted /\ Book.Rating row = None.
Proof.
  intros clk req db; unfold CreateBook, fail, Create, GetByID.
  destruct (negb (validate_CreateBookRequest req)); simpl; auto.
  destruct (uc_now clk <? CreateBookRequest.PurchaseDate req); simpl; auto.
  right; eexists; split; [|split].
  - destruct (find _ _); simpl; reflexivity.
  - reflexivity.
  - reflexivity.
Qed.

Lemma Forall_updated_rows : forall (P : Book.t -> Prop) clk id req db,
  Forall P (rows db) ->
  (forall r, P r -> P (touch_updated_at (db_now clk) (apply_req (repo_now clk) req r))) ->
  Forall P (rows (updated_rows clk id req db)).
Proof.
  intros P clk id req db Hall Hstep; unfold updated_rows; simpl.
  apply Forall_map; eapply Forall_impl; [|exact Hall].
  intros r Hr; destruct (has_id id r); [|exact Hr].
  rewrite apply_parts_setParts; now apply Hstep.
Qed.

(** A rated book has been started: its status is reading, completed or dropped. *)
Definition rated_after_start (b : Book.t) : Prop :=
  Book.Rating b <> None ->
  Book.Status b = StatusReading \/ Book.Status b = StatusCompleted
  \/ Book.Status b = StatusDropped.

(** What the update [req] leaves of the book [b]: a rating on a book that is
    not started.  Such an update rates a book that is, or is being set,
    not_started, or sets a rated book back to not_started. *)
Definition leaves_rated_unstarted (req : UpdateBookRequest.t) (b : Book.t) : Prop :=
  or_else (UpdateBookRequest.Status req) (Book.Status b) = StatusNotStarted
  /\ or_keep (UpdateBookRequest.Rating req) (Book.Rating b) <> None.

(** Every operation is a guarded step, except an update of a stored book that
    would leave it rated and not started. *)
Definition guarded_step (db : DB) (o : op) : Prop :=
  match o with
  | OpUpdateBook id req =>
      forall b, find (has_id id) (rows db) = Some b -> ~ leaves_rated_unstarted req b
  | _ => True
  end.

Inductive guarded_reachable : DB -> Prop :=
| guarded_empty : guarded_reachable empty_db
| guarded_next : forall clk o db,
    guarded_reachable db -> guarded_step db o -> guarded_reachable (run_op clk o db).

Lemma guarded_reachable_reachable : forall db, guarded_reachable db -> reachable db.
Proof. induction 1; [constructor | now constructor]. Qed.

Lemma updated_rows_missing : forall clk id req db,
  find (has_id id) (rows db) = None -> rows (updated_rows clk id req db) = rows db.
Proof.
  intros clk id req db Hf; unfold updated_rows; simpl.
  rewrite <- (map_id (rows db)) at 2; apply map_ext_in.
  intros r Hin; now rewrite (find_none _ _ Hf r Hin).
Qed.

(** An update that writes has passed the CHECK constraints on the new row. *)
Lemma UpdateBook_db_checked : forall clk id req db b,
  store_ok db -> find (has_id id) (rows db) = Some b ->
  snd (UpdateBook clk id req db) = db
  \/ (check_constraints (apply_req (repo_now clk) req b) = true
      /\ snd (UpdateBook clk id req db) = updated_rows clk id req db).
Proof.
  intros clk id req db b Hok Hf.
  rewrite (UpdateBook_found clk db id req b Hok Hf).
  assert (Hu : snd (Update clk id req db) = db
               \/ (check_constraints (apply_req (repo_now clk) req b) = true
                   /\ snd (Update clk id req db) = updated_rows clk id req db)).
  { rewrite (Update_eq clk id req db b Hok Hf).
    destruct (setParts (repo_now clk) req); [now left|].
    destruct (check_constraints _); [right; split; reflexivity | now left]. }
  destruct (UpdateBookRequest.Rating req) as [r|]; [|exact Hu].
  destruct (rating_out_of_range r); [now left | exact Hu].
Qed.

(** The one row an update writes is the row found under the id. *)
Lemma Forall_updated_row : forall (P : Book.t -> Prop) clk id req db b,
  store_ok db -> find (has_id id) (rows db) = Some b ->
  Forall P (rows db) ->
  P (touch_updated_at (db_now clk) (apply_req (repo_now clk) req b)) ->
  Forall P (rows (updated_rows clk id req db)).
Proof.
  intros P clk id req db b [Hs _ _] Hf Hall Hb; unfold updated_rows; simpl.
  apply Forall_map; rewrite Forall_forall in Hall |- *; intros r Hin.
  destruct (has_id id r) eqn:Hr; [|now apply Hall].
  rewrite (sorted_id_unique id (rows db) b r Hs Hf Hin Hr), apply_parts_setParts.
  exact Hb.
Qed.

Lemma guarded_step_rated : forall clk o db,
  store_ok db -> guarded_step db o -> Forall rated_after_start (rows db) ->
  Forall rated_after_start (rows (run_op clk o db)).
Proof.
  intros clk o db Hok Hguard Hall; destruct o as [req|id req|id|id|id rating]; simpl.
  - destruct (CreateBook_rows clk req db) as [-> | (row & -> & Hs & Hr)]; [exact Hall|].
    apply Forall_app; split; [exact Hall|].
    constructor; [|constructor]. intros Hrated; congruence.
  - destruct (find (has_id id) (rows db)) as [b|] eqn:Hf.
    + destruct (UpdateBook_db_checked clk id req db b Hok Hf) as [-> | [Hc ->]];
        [exact Hall|].
      apply (Forall_updated_row _ clk id req db b Hok Hf Hall).
      unfold check_constraints in Hc; apply andb_prop in Hc as [Hst _].
      unfold rated_after_start; revert Hst; book_fields; intros Hst Hrated.
      destruct (check_status_cases _ Hst) as [H0 | [H | [H | H]]]; auto.
      exfalso; apply (Hguard b Hf); split; assumption.
    + destruct (UpdateBook_db clk id req db) as [-> | ->]; [exact Hall|].
      now rewrite updated_rows_missing.
  - destruct (DeleteBook_rows id db) as [-> | ->]; [exact Hall|].
    now apply Forall_filter_rows.
  - destruct (StartReading_db clk id db) as [-> | ->]; [exact Hall|].
    apply Forall_updated_rows; [exact Hall|].
    intros r Hr _; left; reflexivity.
  - destruct (FinishReading_db clk id rating db) as [-> | ->]; [exact Hall|].
    apply Forall_updated_rows; [exact Hall|].
    intros r Hr _; right; left; reflexivity.
Qed.

Lemma guarded_rated : forall db,
  guarded_reachable db -> Forall rated_after_start (rows db).
Proof.
  induction 1 as [|clk o db Hreach IH Hguard]; [constructor|].
  apply guarded_step_rated; [|exact Hguard | exact IH].
  apply reachable_store_ok, guarded_reachable_reachable, Hreach.
Qed.

(** C7, amended.  A rated book that is not started comes only from an update
    whose outcome it is.  In a table reached through any operations (create,
    delete, start-reading, finish-reading, and updates of any fields, status
    and rating included) other than an update that leaves the book it writes
    rated and not started, every book with a rating has status reading,
    completed or dropped.  The code does not refuse the excluded updates: on
    any book of such a table, whatever its status, UpdateBook with a rating in
    1..5 succeeds, stores the rating and leaves the status as it was. *)
Theorem rating_only_after_start_unless_update_leaves_it : forall db,
  guarded_reachable db ->
  (forall b, In b (rows db) -> Book.Rating b <> None ->
     Book.Status b = StatusReading \/ Book.Status b = StatusCompleted
     \/ Book.Status b = StatusDropped)
  /\ (forall clk id b r,
        find (has_id id) (rows db) = Some b -> 1 <= r <= 5 ->
        exists b' db',
          UpdateBook clk id (only_rating r) db = (Ok b', db')
          /\ Book.Rating b' = Some r /\ Book.Status b' = Book.Status b
          /\ find (has_id id) (rows db') = Some b').
Proof.
  intros db Hreach; split.
  - intros b Hin; pose proof (guarded_rated db Hreach) as Hall.
    rewrite Forall_forall in Hall; exact (Hall b Hin).
  - intros clk id b r Hf Hr.
    pose proof (reachable_store_ok db (guarded_reachable_reachable db Hreach)) as Hok.
    destruct (store_ok_row db id b Hok Hf) as (_ & _ & Hst & _).
    apply rating_in_range in Hr.
    rewrite (UpdateBook_found clk db id _ b Hok Hf); simpl; rewrite Hr.
    rewrite (Update_eq clk id _ db b Hok Hf); simpl.
    unfold check_constraints; book_fields; cbn [only_rating UpdateBookRequest.Status
      UpdateBookRequest.Rating or_else or_keep].
    rewrite Hst, check_rating_Some, Hr; simpl.
    eexists; eexists; split; [reflexivity|].
    repeat (split; [reflexivity|]).
    exact (find_updated_rows clk id (only_rating r) db b Hf).
Qed.

Definition db_completed : DB :=
  run_op (at_time 5000) (OpFinishReading 1 (Some 5)) db_reading.

Definition book_completed : Book.t :=
  Book.mk 1 "A" "B" "" "" None 1000 0 StatusCompleted (Some 3000) (Some 5000) (Some 5)
    "" "" 2000 5000.

(** A second book is created at 3500; the first, being read, is set to dropped
    at 4000 by an update of its status and rated 2 at 4600 by an update of its
    rating. *)
Definition db_dropped_rated : DB :=
  run_op (at_time 4600) (OpUpdateBook 1 (only_rating 2))
    (run_op (at_time 4000) (OpUpdateBook 1 (only_status StatusDropped))
       (run_op (at_time 3500) (OpCreateBook request_A) db_reading)).

Definition book_dropped_rated : Book.t :=
  Book.mk 1 "A" "B" "" "" None 1000 0 StatusDropped (Some 3000) (Some 4000) (Some 2)
    "" "" 2000 4600.

Definition book_unread : Book.t :=
  Book.mk 2 "A" "B" "" "" None 1000 0 StatusNotStarted None None None "" "" 3500 3500.

Lemma db_dropped_rated_rows : rows db_dropped_rated = [book_dropped_rated; book_unread].
Proof. reflexivity. Qed.

Lemma db_dropped_rated_guarded : guarded_reachable db_dropped_rated.
Proof.
  unfold db_dropped_rated, db_reading, db_created.
  apply guarded_next; [apply guarded_next; [|]|].
  - repeat (apply guarded_next; [|exact I]); apply guarded_empty.
  - intros b Hf [Hs _]; vm_compute in Hf; injection Hf as <-; discriminate Hs.
  - intros b Hf [Hs _]; vm_compute in Hf; injection Hf as <-; discriminate Hs.
Qed.

Lemma rating_only_after_start_unless_update_leaves_it_witness :
  guarded_reachable db_dropped_rated
  /\ rows db_dropped_rated = [book_dropped_rated; book_unread]
  /\ (forall b, In b (rows db_dropped_rated) -> Book.Rating b <> None ->
        Book.Status b = StatusReading \/ Book.Status b = StatusCompleted
        \/ Book.Status b = StatusDropped)
  /\ (forall clk id b r,
        find (has_id id) (rows db_dropped_rated) = Some b -> 1 <= r <= 5 ->
        exists b' db',
          UpdateBook clk id (only_rating r) db_dropped_rated = (Ok b', db')
          /\ Book.Rating b' = Some r /\ Book.Status b' = Book.Status b
          /\ find (has_id id) (rows db') = Some b').
Proof.
  split; [exact db_dropped_rated_guarded|].
  split; [reflexivity|].
  exact (rating_only_after_start_unless_update_leaves_it db_dropped_rated
           db_dropped_rated_guarded).
Defined.

(** ** C8: the status sent with an error *)





(** ** C9: the order of List *)

(** [a] may come before [b]: [a] was created later, or at the same time and
    inserted earlier. *)
Definition created_then_rowid (a b : Book.t) : Prop :=
  Book.CreatedAt b < Book.CreatedAt a
  \/ (Book.CreatedAt a = Book.CreatedAt b /\ Book.ID a < Book.ID b).

Definition created_at (t : Time) (b : Book.t) : bool := Book.CreatedAt b =? t.

(** An engine keeps ties when sorting does not reorder rows of equal
    [created_at]: they come out in the order of the scan, as they do from
    SQLite's sorter. *)
Definition keeps_ties (E : SqlEngine) : Prop :=
  forall l t,
    filter (created_at t) (order_by_created_at_desc l) = filter (created_at t) l.

Lemma StronglySorted_firstn : forall (R : Book.t -> Book.t -> Prop) n l,
  StronglySorted R l -> StronglySorted R (firstn n l).
Proof.
  intros R n; induction n as [|n IH]; intros l Hs; simpl; [constructor|].
  destruct l as [|x l]; [constructor|].
  inversion Hs as [|? ? Hl Hx]; subst.
  constructor; [now apply IH|].
  rewrite Forall_forall in Hx |- *; intros y Hy.
  apply Hx; rewrite <- (firstn_skipn n l); apply in_or_app; now left.
Qed.

Lemma StronglySorted_skipn : forall (R : Book.t -> Book.t -> Prop) n l,
  StronglySorted R l -> StronglySorted R (skipn n l).
Proof.
  intros R n; induction n as [|n IH]; intros l Hs; simpl; [exact Hs|].
  destruct l as [|x l]; [constructor|].
  inversion Hs; subst; now apply IH.
Qed.

Lemma page_sorted : forall (R : Book.t -> Book.t -> Prop) limit offset l,
  StronglySorted R l ->
  StronglySorted R
    (if 0 <? limit
     then firstn (Z.to_nat limit) (if 0 <? offset then skipn (Z.to_nat offset) l else l)
     else l).
Proof.
  intros R limit offset l Hs.
  destruct (0 <? limit); [|exact Hs].
  apply StronglySorted_firstn.
  destruct (0 <? offset); [now apply StronglySorted_skipn | exact Hs].
Qed.

Lemma select_where_sorted : forall conditions l,
  StronglySorted id_lt l -> StronglySorted id_lt (select_where conditions l).
Proof.
  intros [|c cs] l Hs; simpl; [exact Hs | now apply StronglySorted_filter_rows].
Qed.

(** Sorted by creation time, and sorted by rowid within each creation time. *)
Lemma sorted_within_ties : forall l,
  StronglySorted created_desc l ->
  (forall t, StronglySorted id_lt (filter (created_at t) l)) ->
  StronglySorted created_then_rowid l.
Proof.
  induction l as [|x l IH]; intros Hs Hties; [constructor|].
  inversion Hs as [|? ? Hl Hx]; subst.
  constructor.
  - apply IH; [exact Hl|].
    intros t; specialize (Hties t); simpl in Hties.
    destruct (created_at t x); [now inversion Hties | exact Hties].
  - specialize (Hties (Book.CreatedAt x)); simpl in Hties.
    unfold created_at at 1 in Hties; rewrite Z.eqb_refl in Hties.
    inversion Hties as [|? ? _ Hlt]; subst.
    rewrite Forall_forall in Hx, Hlt |- *; intros y Hy.
    specialize (Hx y Hy); unfold created_desc in Hx; unfold created_then_rowid.
    destruct (Z.eq_dec (Book.CreatedAt y) (Book.CreatedAt x)) as [Heq|Hne].
    + right; split; [now symmetry|].
      apply Hlt, filter_In; split; [exact Hy|].
      unfold created_at; now apply Z.eqb_eq.
    + left; lia.
Qed.

Lemma insert_keeping_ties : forall t x l,
  filter (created_at t) (insert_row_by Z.leb x l) = filter (created_at t) (x :: l).
Proof.
  intros t x l; induction l as [|y l IH]; [reflexivity|].
  cbn [insert_row_by].
  destruct (Z.leb_spec (Book.CreatedAt y) (Book.CreatedAt x)) as [Hle|Hgt]; [reflexivity|].
  cbn [filter] in IH |- *; rewrite IH.
  destruct (created_at t y) eqn:Hy, (created_at t x) eqn:Hx; try reflexivity.
  unfold created_at in Hy, Hx; apply Z.eqb_eq in Hy, Hx; lia.
Qed.

Lemma tie_keeping_engine_keeps_ties : keeps_ties tie_keeping_engine.
Proof.
  intros l t; simpl; unfold sort_keeping_ties, sort_rows_by.
  induction l as [|x l IH]; [reflexivity|].
  cbn [fold_right]; rewrite insert_keeping_ties.
  cbn [filter]; now rewrite IH.
Qed.

(** Two books inserted at the same [CURRENT_TIMESTAMP]. *)
Definition db_two_books : DB := run_op (at_time 2000) (OpCreateBook request_A) db_created.

Definition book_second : Book.t :=
  Book.mk 2 "A" "B" "" "" None 1000 0 StatusNotStarted None None None "" "" 2000 2000.

Lemma db_two_books_reachable : reachable db_two_books.
Proof. apply reachable_step, db_created_reachable. Qed.

(** A third book, created later than the two. *)
Definition db_three_books : DB := run_op (at_time 2500) (OpCreateBook request_A) db_two_books.

Definition book_third : Book.t :=
  Book.mk 3 "A" "B" "" "" None 1000 0 StatusNotStarted None None None "" "" 2500 2500.

Lemma db_three_books_reachable : reachable db_three_books.
Proof. apply reachable_step, db_two_books_reachable. Qed.

(** In a strongly sorted list every earlier position is related to every later one. *)
Lemma StronglySorted_nth_error : forall (R : Book.t -> Book.t -> Prop) l,
  StronglySorted R l ->
  forall i j a b,
    (i < j)%nat -> nth_error l i = Some a -> nth_error l j = Some b -> R a b.
Proof.
  intros R l Hs; induction Hs as [|x l Hl IH Hx]; intros i j a b Hij Ha Hb.
  - destruct i; discriminate Ha.
  - destruct j as [|j]; [inversion Hij|].
    destruct i as [|i]; simpl in Ha, Hb.
    + injection Ha as <-.
      rewrite Forall_forall in Hx; apply Hx.
      eapply nth_error_In; exact Hb.
    + apply (IH i j); [apply Nat.succ_lt_mono; exact Hij | exact Ha | exact Hb].
Qed.

(** C9.  The SQLite store scans the table in rowid order and its sort leaves
    rows of equal key in the order of the scan ([keeps_ties]).  On such an
    engine, for every filter and every page, the books List returns are in
    descending order of creation time, and of two books with the same creation
    time the one inserted first (the smaller rowid) comes first: whenever [a]
    is listed before [b], [b] was not created after [a], and if they were
    created at the same time then [a] was inserted before [b]. *)
Theorem List_descending_ties_in_insertion_order :
  forall (E : SqlEngine) filter limit offset db,
  keeps_ties E ->
  store_ok db ->
  exists books,
    List filter limit offset db = (Ok books, db)
    /\ StronglySorted created_desc books
    /\ StronglySorted created_then_rowid books
    /\ (forall i j a b,
          (i < j)%nat -> nth_error books i = Some a -> nth_error books j = Some b ->
          Book.CreatedAt b <= Book.CreatedAt a
          /\ (Book.CreatedAt a = Book.CreatedAt b -> Book.ID a < Book.ID b)).
Proof.
  intros E filter limit offset db Hkeep [Hs _ _]; unfold List.
  eexists; split; [reflexivity|].
  match goal with
  | |- _ /\ StronglySorted _ ?l /\ _ =>
      assert (Hsorted : StronglySorted created_then_rowid l)
  end.
  { apply page_sorted, sorted_within_ties; [apply order_by_sorted|].
    intros t; rewrite Hkeep.
    now apply StronglySorted_filter_rows, select_where_sorted. }
  split; [apply page_sorted, order_by_sorted|].
  split; [exact Hsorted|].
  intros i j a b Hij Ha Hb.
  destruct (StronglySorted_nth_error _ _ Hsorted i j a b Hij Ha Hb) as [Hlt | [Heq Hid]].
  - split; lia.
  - split; [lia | intros _; exact Hid].
Qed.

Lemma List_descending_ties_in_insertion_order_witness :
  keeps_ties tie_keeping_engine
  /\ store_ok db_three_books
  /\ rows db_three_books = [book_created; book_second; book_third]
  /\ List (E := tie_keeping_engine) None 0 0 db_three_books
     = (Ok [book_third; book_created; book_second], db_three_books)
  /\ exists books,
       List (E := tie_keeping_engine) None 0 0 db_three_books = (Ok books, db_three_books)
       /\ StronglySorted created_desc books
       /\ StronglySorted created_then_rowid books
       /\ (forall i j a b,
             (i < j)%nat -> nth_error books i = Some a -> nth_error books j = Some b ->
             Book.CreatedAt b <= Book.CreatedAt a
             /\ (Book.CreatedAt a = Book.CreatedAt b -> Book.ID a < Book.ID b)).
Proof.
  split; [exact tie_keeping_engine_keeps_ties|].
  split; [exact (reachable_store_ok _ db_three_books_reachable)|].
  split; [reflexivity|].
  split; [reflexivity|].
  exact (List_descending_ties_in_insertion_order tie_keeping_engine None 0 0 db_three_books
           tie_keeping_engine_keeps_ties
           (reachable_store_ok _ db_three_books_reachable)).
Defined.

(** The two books created at the same time come out in insertion order. *)
Example List_two_books_keeping_ties :
  List (E := tie_keeping_engine) None 0 0 db_two_books
  = (Ok [book_created; book_second], db_two_books).
Proof. reflexivity. Qed.

(** ** C10: the update with every field absent *)

(** C10.  For a book of the table, UpdateBook with every field of the request
    absent succeeds, returns the book exactly as stored (updated-at included)
    and leaves the table exactly as it was: nothing is written. *)
Theorem UpdateBook_all_absent_is_noop : forall clk db id b,
  store_ok db -> find (has_id id) (rows db) = Some b ->
  UpdateBook clk id UpdateBookRequest.empty db = (Ok b, db)
  /\ setParts (repo_now clk) UpdateBookRequest.empty = [].
Proof.
  intros clk db id b Hok Hf; split; [|reflexivity].
  rewrite (UpdateBook_found clk db id _ b Hok Hf); simpl.
  now rewrite (Update_eq clk id _ db b Hok Hf).
Qed.

Lemma UpdateBook_all_absent_is_noop_witness :
  UpdateBook (at_time 7000) 1 UpdateBookRequest.empty db_reading_rated
  = (Ok book_reading_rated, db_reading_rated)
  /\ setParts (repo_now (at_time 7000)) UpdateBookRequest.empty = [].
Proof.
  exact (UpdateBook_all_absent_is_noop (at_time 7000) db_reading_rated 1 book_reading_rated
           (reachable_store_ok _ db_reading_rated_reachable) db_reading_rated_row).
Defined.

(** ** The scenarios of the specification, run on the model *)

(** create, start-reading, finish-reading with rating 5, then the statistics:
    one completed book and an average rating of 5 / 1. *)
Example scenario_lifecycle :
  exists stats,
    fst (GetStatistics (E := tie_keeping_engine) (at_time 6000) db_completed) = Ok stats
    /\ find (has_id 1) (rows db_completed) = Some book_completed
    /\ TotalBooks stats = 1 /\ CompletedBooks stats = 1
    /\ AverageRating stats = Some (5, 1).
Proof.
  eexists; split; [reflexivity|]; repeat split.
Qed.

(** GET /books/999999 on an empty table is answered 404. *)
Example scenario_missing_book :
  Handler.GetBook "999999" empty_db
  = (sendErrorResponse StatusNotFound (FromUsecase (ErrNotFound 999999)), empty_db).
Proof. reflexivity. Qed.

(** POST /books with a purchase date in the future is answered 400. *)
Example scenario_future_purchase :
  Handler.CreateBook (at_time 2000) (Some request_future) empty_db
  = (sendErrorResponse StatusBadRequest (FromUsecase ErrFuturePurchaseDate), empty_db).
Proof. reflexivity. Qed.

(** * Further properties of the repository, the usecase and the handlers *)

(** ** Invariants of reachable tables *)

Lemma sorted_ids_NoDup : forall l,
  StronglySorted id_lt l -> NoDup (map Book.ID l).
Proof.
  induction 1 as [|x l Hs IH Hx]; simpl; constructor; [|exact IH].
  intros Hin; apply in_map_iff in Hin as (y & Hy & Hin).
  rewrite Forall_forall in Hx; specialize (Hx y Hin); unfold id_lt in Hx; lia.
Qed.

(** X1.  In every table the operations can reach, ids are positive, pairwise
    distinct and not above the AUTOINCREMENT counter; every book has one of the
    four statuses; and a rating, when present, is between 1 and 5. *)
Theorem reachable_books_satisfy_schema : forall db,
  reachable db ->
  NoDup (map Book.ID (rows db))
  /\ forall b, In b (rows db) ->
       0 < Book.ID b <= seq db
       /\ (Book.Status b = StatusNotStarted \/ Book.Status b = StatusReading
           \/ Book.Status b = StatusCompleted \/ Book.Status b = StatusDropped)
       /\ (forall r, Book.Rating b = Some r -> 1 <= r <= 5).
Proof.
  intros db Hreach; destruct (reachable_store_ok db Hreach) as [Hs Hr Hc]; split.
  - now apply sorted_ids_NoDup.
  - intros b Hin; rewrite Forall_forall in Hr, Hc.
    specialize (Hr b Hin); specialize (Hc b Hin).
    apply andb_prop in Hc as [Hst Hra].
    split; [exact Hr|]; split; [now apply check_status_cases|].
    intros r Hrat; rewrite Hrat, check_rating_Some in Hra.
    apply negb_true_iff in Hra; now apply rating_in_range.
Qed.

Lemma db_completed_reachable : reachable db_completed.
Proof. apply reachable_step, db_reading_reachable. Qed.

Lemma reachable_books_satisfy_schema_witness :
  NoDup (map Book.ID (rows db_completed))
  /\ forall b, In b (rows db_completed) ->
       0 < Book.ID b <= seq db_completed
       /\ (Book.Status b = StatusNotStarted \/ Book.Status b = StatusReading
           \/ Book.Status b = StatusCompleted \/ Book.Status b = StatusDropped)
       /\ (forall r, Book.Rating b = Some r -> 1 <= r <= 5).
Proof.
  exact (reachable_books_satisfy_schema db_completed db_completed_reachable).
Defined.

(** ** Ids that are not in the table *)

Lemma find_None_GetByID : forall id db,
  find (has_id id) (rows db) = None -> GetByID id db = (Err (ErrNotFound id), db).
Proof. intros id db H; unfold GetByID; now rewrite H. Qed.

(** The error an id that names no book is answered with. *)
Definition missing_id_error (id : Z) : error :=
  if id <=? 0 then ErrInvalidID id else ErrNotFound id.

(** X2.  For an id that names no book of the table, each of the five
    operations that take an id fails and leaves the table as it was: with the
    invalid-id error when the id is zero or negative (the table is not even
    read), with the not-found error otherwise. *)
Theorem missing_id_is_rejected : forall clk db id req rating,
  find (has_id id) (rows db) = None ->
  GetBook id db = (Err (missing_id_error id), db)
  /\ UpdateBook clk id req db = (Err (missing_id_error id), db)
  /\ DeleteBook id db = (Err (missing_id_error id), db)
  /\ StartReading clk id db = (Err (missing_id_error id), db)
  /\ FinishReading clk id rating db = (Err (missing_id_error id), db).
Proof.
  intros clk db id req rating Hf.
  unfold GetBook, UpdateBook, DeleteBook, StartReading, FinishReading,
    missing_id_error, bind, fail.
  destruct (id <=? 0); [repeat split|].
  rewrite (find_None_GetByID id db Hf); repeat split.
Qed.

Lemma missing_id_is_rejected_witness :
  GetBook 7 db_created = (Err (ErrNotFound 7), db_created)
  /\ UpdateBook (at_time 2500) 7 (only_rating 3) db_created = (Err (ErrNotFound 7), db_created)
  /\ DeleteBook 7 db_created = (Err (ErrNotFound 7), db_created)
  /\ StartReading (at_time 2500) 7 db_created = (Err (ErrNotFound 7), db_created)
  /\ FinishReading (at_time 2500) 7 None db_created = (Err (ErrNotFound 7), db_created).
Proof.
  exact (missing_id_is_rejected (at_time 2500) db_created 7 (only_rating 3) None eq_refl).
Defined.

(** ** Deleting *)

Lemma filter_out_found : forall id l b,
  find (has_id id) l = Some b ->
  (List.length (filter (fun r => negb (has_id id r)) l) < List.length l)%nat.
Proof.
  intros id l b; induction l as [|x l IH]; simpl; [discriminate|].
  destruct (has_id id x) eqn:Hx; simpl.
  - intros _; pose proof (filter_length_le (fun r => negb (has_id id r)) l); lia.
  - intros Hf; specialize (IH Hf); lia.
Qed.

Lemma find_filter_other : forall id id' l,
  id' <> id ->
  find (has_id id') (filter (fun r => negb (has_id id r)) l) = find (has_id id') l.
Proof.
  intros id id' l Hne; induction l as [|x l IH]; simpl; [reflexivity|].
  destruct (has_id id x) eqn:Hx; simpl.
  - apply Z.eqb_eq in Hx.
    destruct (has_id id' x) eqn:Hx'; [apply Z.eqb_eq in Hx'; congruence | exact IH].
  - destruct (has_id id' x); [reflexivity | exact IH].
Qed.

Lemma find_filter_self : forall id l,
  find (has_id id) (filter (fun r => negb (has_id id r)) l) = None.
Proof.
  intros id l; induction l as [|x l IH]; simpl; [reflexivity|].
  destruct (has_id id x) eqn:Hx; simpl; [exact IH | now rewrite Hx].
Qed.

Lemma DeleteBook_found : forall db id b,
  store_ok db -> find (has_id id) (rows db) = Some b ->
  DeleteBook id db
  = (Ok tt, mkDB (filter (fun r => negb (has_id id r)) (rows db)) (seq db)).
Proof.
  intros db id b Hok Hf.
  destruct (store_ok_row db id b Hok Hf) as (Hpos & _).
  unfold DeleteBook, bind; rewrite (positive_id id Hpos), (GetByID_found id db b Hf).
  unfold Delete, exec_delete.
  pose proof (filter_out_found id (rows db) b Hf) as Hlt.
  destruct (Z.eqb_spec (Z.of_nat (List.length (rows db))
              - Z.of_nat (List.length (filter (fun r => negb (has_id id r)) (rows db)))) 0);
    [lia | reflexivity].
Qed.

(** X3.  Deleting a book of the table succeeds and removes that book only: the
    id is not found afterwards, every other id is answered as before, there is
    one row less, and the AUTOINCREMENT counter does not move. *)
Theorem DeleteBook_removes_one_book : forall db id b,
  store_ok db -> find (has_id id) (rows db) = Some b ->
  exists db',
    DeleteBook id db = (Ok tt, db')
    /\ GetByID id db' = (Err (ErrNotFound id), db')
    /\ (forall id', id' <> id -> fst (GetByID id' db') = fst (GetByID id' db))
    /\ S (List.length (rows db')) = List.length (rows db)
    /\ seq db' = seq db.
Proof.
  intros db id b Hok Hf; eexists; split; [exact (DeleteBook_found db id b Hok Hf)|].
  split; [|split; [|split]].
  - apply find_None_GetByID; simpl; apply find_filter_self.
  - intros id' Hne; unfold GetByID; simpl.
    rewrite (find_filter_other id id' (rows db) Hne).
    now destruct (find (has_id id') (rows db)).
  - simpl; destruct Hok as [Hs _ _].
    clear -Hs Hf; induction Hs as [|x l Hs IH Hx]; simpl in *; [discriminate|].
    destruct (has_id id x) eqn:Hxid; simpl.
    + f_equal; apply Z.eqb_eq in Hxid.
      rewrite Forall_forall in Hx.
      clear -Hx Hxid; induction l as [|y l IHl]; simpl; [reflexivity|].
      assert (Hy : has_id id y = false).
      { apply Z.eqb_neq; specialize (Hx y (or_introl eq_refl)); unfold id_lt in Hx; lia. }
      rewrite Hy; simpl; f_equal; apply IHl; intros z Hz; apply Hx; now right.
    + f_equal; now apply IH.
  - reflexivity.
Qed.

Lemma DeleteBook_removes_one_book_witness :
  exists db',
    DeleteBook 1 db_reading = (Ok tt, db')
    /\ GetByID 1 db' = (Err (ErrNotFound 1), db')
    /\ (forall id', id' <> 1 -> fst (GetByID id' db') = fst (GetByID id' db_reading))
    /\ S (List.length (rows db')) = List.length (rows db_reading)
    /\ seq db' = seq db_reading.
Proof.
  exact (DeleteBook_removes_one_book db_reading 1 book_reading
           (reachable_store_ok _ db_reading_reachable) db_reading_row).
Defined.

(** ** Creating *)

Lemma find_app_other : forall id l x,
  has_id id x = false -> find (has_id id) (l ++ [x]) = find (has_id id) l.
Proof.
  intros id l x Hx; induction l as [|y l IH]; simpl.
  - now rewrite Hx.
  - destruct (has_id id y); [reflexivity | exact IH].
Qed.

(** The row [Create] inserts for a request. *)
Definition created_row (clk : Clock) (req : CreateBookRequest.t) (db : DB) : Book.t :=
  Book.mk (next_rowid db) (CreateBookRequest.Title req) (CreateBookRequest.Author req)
    (CreateBookRequest.ISBN req) (CreateBookRequest.Publisher req)
    (CreateBookRequest.PublishedDate req) (CreateBookRequest.PurchaseDate req)
    (CreateBookRequest.PurchasePrice req) StatusNotStarted None None None
    (CreateBookRequest.Notes req) (CreateBookRequest.Tags req) (db_now clk) (db_now clk).

Lemma CreateBook_Ok_inv : forall clk req db b db',
  store_ok db -> CreateBook clk req db = (Ok b, db') ->
  b = created_row clk req db
  /\ db' = mkDB (rows db ++ [b]) (Book.ID b)
  /\ required_present req
  /\ CreateBookRequest.PurchaseDate req <= uc_now clk.
Proof.
  intros clk req db b db' Hok; unfold CreateBook, fail.
  destruct (validate_CreateBookRequest req) eqn:Hv; simpl; [|discriminate].
  destruct (Z.ltb_spec (uc_now clk) (CreateBookRequest.PurchaseDate req)); [discriminate|].
  rewrite (Create_eq clk req db Hok); unfold exec_insert; simpl.
  intros [= <- <-]; repeat split; try (apply validate_required in Hv; apply Hv); lia.
Qed.

Lemma next_rowid_above_seq : forall db, seq db < next_rowid db.
Proof. intros db; unfold next_rowid; lia. Qed.

(** X4.  A successful CreateBook stores what it returns and nothing else: the
    new book carries the request's texts and price, no rating, and the database
    time in both timestamps; its id is above the AUTOINCREMENT counter, was not
    in the table, and becomes the counter; the book is found under that id;
    every other id is answered as before.  The two dates of the request go
    through the driver's text form and are left out. *)
Theorem CreateBook_stores_the_request : forall clk req db b db',
  store_ok db -> CreateBook clk req db = (Ok b, db') ->
  (Book.Title b = CreateBookRequest.Title req
   /\ Book.Author b = CreateBookRequest.Author req
   /\ Book.ISBN b = CreateBookRequest.ISBN req
   /\ Book.Publisher b = CreateBookRequest.Publisher req
   /\ Book.PurchasePrice b = CreateBookRequest.PurchasePrice req
   /\ Book.Notes b = CreateBookRequest.Notes req
   /\ Book.Tags b = CreateBookRequest.Tags req
   /\ Book.Rating b = None
   /\ Book.CreatedAt b = db_now clk /\ Book.UpdatedAt b = db_now clk)
  /\ seq db < Book.ID b /\ seq db' = Book.ID b
  /\ GetByID (Book.ID b) db = (Err (ErrNotFound (Book.ID b)), db)
  /\ GetBook (Book.ID b) db' = (Ok b, db')
  /\ (forall id, id <> Book.ID b -> fst (GetByID id db') = fst (GetByID id db))
  /\ rows db' = rows db ++ [b].
Proof.
  intros clk req db b db' Hok H.
  destruct (CreateBook_Ok_inv clk req db b db' Hok H) as (Hb & Hdb & _ & _).
  destruct (next_rowid_fresh db Hok) as [Hfresh Hpos].
  assert (Hid : Book.ID b = next_rowid db) by (now rewrite Hb).
  assert (Hnone : find (has_id (Book.ID b)) (rows db) = None)
    by (rewrite Hid; now apply find_absent).
  split; [rewrite Hb; repeat split|].
  split; [rewrite Hid; apply next_rowid_above_seq|].
  split; [now rewrite Hdb|].
  split; [now apply find_None_GetByID|].
  split; [|split].
  - unfold GetBook; rewrite positive_id by (rewrite Hid; exact Hpos).
    apply GetByID_found; rewrite Hdb; simpl.
    apply find_app_last; [exact Hnone | apply Z.eqb_refl].
  - intros id Hne; unfold GetByID; rewrite Hdb; simpl.
    rewrite find_app_other by (apply Z.eqb_neq; congruence).
    now destruct (find (has_id id) (rows db)).
  - now rewrite Hdb.
Qed.

Lemma CreateBook_stores_the_request_witness :
  (Book.Title book_second = CreateBookRequest.Title request_A
   /\ Book.Author book_second = CreateBookRequest.Author request_A
   /\ Book.ISBN book_second = CreateBookRequest.ISBN request_A
   /\ Book.Publisher book_second = CreateBookRequest.Publisher request_A
   /\ Book.PurchasePrice book_second = CreateBookRequest.PurchasePrice request_A
   /\ Book.Notes book_second = CreateBookRequest.Notes request_A
   /\ Book.Tags book_second = CreateBookRequest.Tags request_A
   /\ Book.Rating book_second = None
   /\ Book.CreatedAt book_second = db_now (at_time 2000)
   /\ Book.UpdatedAt book_second = db_now (at_time 2000))
  /\ seq db_created < Book.ID book_second /\ seq db_two_books = Book.ID book_second
  /\ GetByID (Book.ID book_second) db_created
     = (Err (ErrNotFound (Book.ID book_second)), db_created)
  /\ GetBook (Book.ID book_second) db_two_books = (Ok book_second, db_two_books)
  /\ (forall id, id <> Book.ID book_second ->
      fst (GetByID id db_two_books) = fst (GetByID id db_created))
  /\ rows db_two_books = rows db_created ++ [book_second].
Proof.
  exact (CreateBook_stores_the_request (at_time 2000) request_A db_created book_second
           db_two_books (reachable_store_ok _ db_created_reachable) eq_refl).
Defined.

(** ** Ids are never handed out twice *)

(** [later db db']: [db'] is [db] after some operations. *)
Inductive later (db : DB) : DB -> Prop :=
| later_now : later db db
| later_step : forall clk o db', later db db' -> later db (run_op clk o db').

Lemma Update_seq : forall clk id req db, seq (snd (Update clk id req db)) = seq db.
Proof.
  intros clk id req db; destruct (Update_db clk id req db) as [-> | ->]; reflexivity.
Qed.

Lemma run_op_seq : forall clk o db, seq db <= seq (run_op clk o db).
Proof.
  intros clk [req|id req|id|id|id rating] db; simpl.
  - unfold CreateBook, fail, Create, exec_insert, GetByID.
    destruct (negb (validate_CreateBookRequest req)); simpl; [lia|].
    destruct (uc_now clk <? CreateBookRequest.PurchaseDate req); simpl; [lia|].
    pose proof (next_rowid_above_seq db).
    destruct (find _ _); simpl; lia.
  - destruct (UpdateBook_db clk id req db) as [-> | ->]; simpl; lia.
  - unfold DeleteBook, bind, fail, GetByID, Delete, exec_delete.
    destruct (id <=? 0); simpl; [lia|].
    destruct (find (has_id id) (rows db)); simpl; [|lia].
    destruct (_ =? 0); simpl; lia.
  - destruct (StartReading_db clk id db) as [-> | ->]; simpl; lia.
  - destruct (FinishReading_db clk id rating db) as [-> | ->]; simpl; lia.
Qed.

Lemma later_seq : forall db db',
  store_ok db -> later db db' -> store_ok db' /\ seq db <= seq db'.
Proof.
  intros db db' Hok; induction 1 as [|clk o db' _ [IHok IHseq]].
  - split; [exact Hok | lia].
  - split; [now apply run_op_ok|].
    pose proof (run_op_seq clk o db'); lia.
Qed.

(** X5.  An id is never handed out twice: a book created after any further
    operations, deletions included, gets an id above the id of every book the
    table held before. *)
Theorem created_id_is_new : forall clk req db db' b db'',
  store_ok db -> later db db' ->
  CreateBook clk req db' = (Ok b, db'') ->
  forall b0, In b0 (rows db) -> Book.ID b0 < Book.ID b.
Proof.
  intros clk req db db' b db'' Hok Hlater Hcreate b0 Hin.
  destruct (later_seq db db' Hok Hlater) as [Hok' Hseq].
  destruct (CreateBook_Ok_inv clk req db' b db'' Hok' Hcreate) as (Hb & _).
  pose proof (next_rowid_above_seq db') as Hnext.
  destruct Hok as [_ Hr _]; rewrite Forall_forall in Hr; specialize (Hr b0 Hin).
  rewrite Hb; simpl; lia.
Qed.

(** The first book deleted, then a book created: the new book gets id 2. *)
Definition db_after_delete : DB := run_op (at_time 2600) (OpDeleteBook 1) db_created.

Lemma created_id_is_new_witness : Book.ID book_created < Book.ID book_second.
Proof.
  apply (created_id_is_new (at_time 2000) request_A db_created db_after_delete book_second
           (mkDB [book_second] 2) (reachable_store_ok _ db_created_reachable)).
  - apply later_step, later_now.
  - reflexivity.
  - left; reflexivity.
Defined.

(** ** Failed operations *)

Definition error_of {A : Type} (r : result A) : option error :=
  match r with
  | Ok _ => None
  | Err e => Some e
  end.

(** The error an operation returns, if it returns one. *)
Definition op_error (clk : Clock) (o : op) (db : DB) : option error :=
  match o with
  | OpCreateBook req => error_of (fst (CreateBook clk req db))
  | OpUpdateBook id req => error_of (fst (UpdateBook clk id req db))
  | OpDeleteBook id => error_of (fst (DeleteBook id db))
  | OpStartReading id => error_of (fst (StartReading clk id db))
  | OpFinishReading id rating => error_of (fst (FinishReading clk id rating db))
  end.

Lemma missing_id_table : forall clk id db,
  find (has_id id) (rows db) = None ->
  forall o, o = OpDeleteBook id \/ o = OpStartReading id
            \/ (exists req, o = OpUpdateBook id req)
            \/ (exists rating, o = OpFinishReading id rating) ->
  run_op clk o db = db.
Proof.
  intros clk id db Hf o Ho.
  destruct Ho as [-> | [-> | [[req ->] | [rating ->]]]]; simpl;
    unfold DeleteBook, StartReading, UpdateBook, FinishReading, bind, fail;
    (destruct (id <=? 0); [reflexivity|]);
    now rewrite (find_None_GetByID id db Hf).
Qed.

Lemma op_error_keeps_table : forall clk o db e,
  store_ok db -> op_error clk o db = Some e -> run_op clk o db = db.
Proof.
  intros clk o db e Hok; destruct o as [req|id req|id|id|id rating]; simpl.
  - unfold CreateBook, fail.
    destruct (negb (validate_CreateBookRequest req)); [reflexivity|].
    destruct (uc_now clk <? CreateBookRequest.PurchaseDate req); [reflexivity|].
    rewrite (Create_eq clk req db Hok); discriminate.
  - destruct (find (has_id id) (rows db)) as [b|] eqn:Hf.
    + rewrite (UpdateBook_found clk db id req b Hok Hf).
      assert (Hu : error_of (fst (Update clk id req db)) = Some e ->
                   snd (Update clk id req db) = db).
      { rewrite (Update_eq clk id req db b Hok Hf).
        destruct (setParts (repo_now clk) req); [discriminate|].
        now destruct (check_constraints _). }
      destruct (UpdateBookRequest.Rating req) as [r|]; [|exact Hu].
      destruct (rating_out_of_range r); [reflexivity | exact Hu].
    + intros _; apply (missing_id_table clk id db Hf (OpUpdateBook id req)); eauto.
  - destruct (find (has_id id) (rows db)) as [b|] eqn:Hf.
    + rewrite (DeleteBook_found db id b Hok Hf); discriminate.
    + intros _; apply (missing_id_table clk id db Hf (OpDeleteBook id)); eauto.
  - destruct (find (has_id id) (rows db)) as [b|] eqn:Hf.
    + rewrite (StartReading_found clk db id b Hok Hf).
      destruct (String.eqb (Book.Status b) StatusReading); [reflexivity|].
      destruct (String.eqb (Book.Status b) StatusCompleted); [reflexivity | discriminate].
    + intros _; apply (missing_id_table clk id db Hf (OpStartReading id)); eauto.
  - destruct (find (has_id id) (rows db)) as [b|] eqn:Hf.
    + rewrite (FinishReading_found clk db id rating b Hok Hf).
      destruct (negb (String.eqb (Book.Status b) StatusReading)); [reflexivity|].
      destruct rating as [r|]; [|discriminate].
      destruct (rating_out_of_range r); [reflexivity | discriminate].
    + intros _; apply (missing_id_table clk id db Hf (OpFinishReading id rating)); eauto.
Qed.

(** X6.  An operation that returns an error has written nothing: the table
    after it is the table before it. *)
Theorem failed_operation_writes_nothing : forall clk db,
  store_ok db ->
  (forall req e,
     fst (CreateBook clk req db) = Err e -> snd (CreateBook clk req db) = db)
  /\ (forall id req e,
        fst (UpdateBook clk id req db) = Err e -> snd (UpdateBook clk id req db) = db)
  /\ (forall id e, fst (DeleteBook id db) = Err e -> snd (DeleteBook id db) = db)
  /\ (forall id e,
        fst (StartReading clk id db) = Err e -> snd (StartReading clk id db) = db)
  /\ (forall id rating e,
        fst (FinishReading clk id rating db) = Err e ->
        snd (FinishReading clk id rating db) = db).
Proof.
  intros clk db Hok; repeat match goal with |- _ /\ _ => split end.
  - intros req e H.
    apply (op_error_keeps_table clk (OpCreateBook req) db e Hok); simpl; now rewrite H.
  - intros id req e H.
    apply (op_error_keeps_table clk (OpUpdateBook id req) db e Hok); simpl; now rewrite H.
  - intros id e H.
    apply (op_error_keeps_table clk (OpDeleteBook id) db e Hok); simpl; now rewrite H.
  - intros id e H.
    apply (op_error_keeps_table clk (OpStartReading id) db e Hok); simpl; now rewrite H.
  - intros id rating e H.
    apply (op_error_keeps_table clk (OpFinishReading id rating) db e Hok); simpl;
      now rewrite H.
Qed.

Lemma failed_operation_writes_nothing_witness :
  snd (UpdateBook (at_time 2500) 1 (only_status "paused") db_created) = db_created.
Proof.
  apply (failed_operation_writes_nothing (at_time 2500) db_created
           (reachable_store_ok _ db_created_reachable)) with (e := ErrUpdateFailed).
  reflexivity.
Defined.

(** ** Updating *)

Lemma find_updated_rows_other : forall clk id id' req db,
  id' <> id ->
  find (has_id id') (rows (updated_rows clk id req db)) = find (has_id id') (rows db).
Proof.
  intros clk id id' req db Hne; unfold updated_rows; simpl.
  rewrite find_map_same_id.
  - destruct (find (has_id id') (rows db)) as [r|] eqn:Hf; [simpl | reflexivity].
    destruct (find_has_id _ _ _ Hf) as [_ Hid].
    unfold has_id; destruct (Z.eqb_spec (Book.ID r) id); [congruence | reflexivity].
  - intros r; destruct (has_id id r); [simpl; apply apply_parts_ID | reflexivity].
Qed.

(** X7.  A successful UpdateBook returns, and stores under the same id, the
    book with each text, the price, the status and the rating the request
    carries set to the request's value, and each field it does not carry left
    as it was; the id, the purchase date and created-at never change.  A date
    the request does not carry is left as it was, except for the two dates the
    repository stamps on its own: with status "reading" and no start-read date
    in the request the start-read date becomes the repository's current time,
    and likewise the end-read date with status "completed" or "dropped".  What
    is read back of a date the request does carry depends on the driver's text
    form and is left out.  Updated-at becomes the database time, unless the
    request carries no field at all. *)
Theorem UpdateBook_applies_present_fields : forall clk db id req b b' db',
  store_ok db -> find (has_id id) (rows db) = Some b ->
  UpdateBook clk id req db = (Ok b', db') ->
  Book.ID b' = Book.ID b
  /\ Book.PurchaseDate b' = Book.PurchaseDate b
  /\ Book.CreatedAt b' = Book.CreatedAt b
  /\ Book.Title b' = or_else (UpdateBookRequest.Title req) (Book.Title b)
  /\ Book.Author b' = or_else (UpdateBookRequest.Author req) (Book.Author b)
  /\ Book.ISBN b' = or_else (UpdateBookRequest.ISBN req) (Book.ISBN b)
  /\ Book.Publisher b' = or_else (UpdateBookRequest.Publisher req) (Book.Publisher b)
  /\ (UpdateBookRequest.PublishedDate req = None ->
      Book.PublishedDate b' = Book.PublishedDate b)
  /\ Book.PurchasePrice b'
     = or_else (UpdateBookRequest.PurchasePrice req) (Book.PurchasePrice b)
  /\ Book.Status b' = or_else (UpdateBookRequest.Status req) (Book.Status b)
  /\ (UpdateBookRequest.StartReadDate req = None ->
      Book.StartReadDate b'
      = if stamps_start req then Some (repo_now clk) else Book.StartReadDate b)
  /\ (UpdateBookRequest.EndReadDate req = None ->
      Book.EndReadDate b'
      = if stamps_end req then Some (repo_now clk) else Book.EndReadDate b)
  /\ Book.Rating b' = or_keep (UpdateBookRequest.Rating req) (Book.Rating b)
  /\ Book.Notes b' = or_else (UpdateBookRequest.Notes req) (Book.Notes b)
  /\ Book.Tags b' = or_else (UpdateBookRequest.Tags req) (Book.Tags b)
  /\ (req = UpdateBookRequest.empty -> Book.UpdatedAt b' = Book.UpdatedAt b)
  /\ (req <> UpdateBookRequest.empty -> Book.UpdatedAt b' = db_now clk)
  /\ find (has_id id) (rows db') = Some b'.
Proof.
  intros clk db id req b b' db' Hok Hf H.
  apply UpdateBook_Ok_Update in H as (H & _).
  rewrite (Update_eq clk id req db b Hok Hf) in H.
  destruct (setParts (repo_now clk) req) as [|a parts] eqn:Hp.
  - injection H as <- <-.
    apply setParts_nil in Hp; subst req.
    repeat split; try reflexivity; try exact Hf.
    intros Hne; now contradiction Hne.
  - destruct (check_constraints (apply_req (repo_now clk) req b)); [|discriminate].
    injection H as <- <-.
    repeat match goal with |- _ /\ _ => split end; try reflexivity.
    + intros Hn; book_fields; now rewrite Hn.
    + intros Hn; book_fields; now rewrite Hn.
    + intros Hn; book_fields; now rewrite Hn.
    + intros ->; discriminate.
    + exact (find_updated_rows clk id req db b Hf).
Qed.

Definition request_notes_and_status : UpdateBookRequest.t :=
  UpdateBookRequest.mk None None None None None None (Some StatusDropped) None None None
    (Some "gave up") None.

Definition book_dropped : Book.t :=
  Book.mk 1 "A" "B" "" "" None 1000 0 StatusDropped (Some 3000) (Some 4000) None
    "gave up" "" 2000 4000.

Definition db_dropped : DB :=
  run_op (at_time 4000) (OpUpdateBook 1 request_notes_and_status) db_reading.

Lemma db_dropped_reachable : reachable db_dropped.
Proof. apply reachable_step, db_reading_reachable. Qed.

Lemma db_dropped_row : find (has_id 1) (rows db_dropped) = Some book_dropped.
Proof. reflexivity. Qed.

Lemma UpdateBook_applies_present_fields_witness :
  Book.Status book_dropped = StatusDropped
  /\ Book.EndReadDate book_dropped = Some 4000
  /\ Book.StartReadDate book_dropped = Book.StartReadDate book_reading
  /\ Book.Notes book_dropped = "gave up"
  /\ Book.UpdatedAt book_dropped = 4000.
Proof.
  assert (Hrun : UpdateBook (at_time 4000) 1 request_notes_and_status db_reading
                 = (Ok book_dropped, db_dropped)) by (vm_compute; reflexivity).
  pose proof (UpdateBook_applies_present_fields (at_time 4000) db_reading 1
                request_notes_and_status book_reading book_dropped db_dropped
                (reachable_store_ok _ db_reading_reachable) db_reading_row Hrun) as H.
  destruct H as (_ & _ & _ & _ & _ & _ & _ & _ & _ & Hstatus & Hstart & Hend & _
                 & Hnotes & _ & _ & Hupdated & _).
  split; [exact Hstatus|].
  split; [exact (Hend eq_refl)|].
  split; [exact (Hstart eq_refl)|].
  split; [exact Hnotes|].
  apply Hupdated; discriminate.
Defined.

(** X8.  UpdateBook, StartReading and FinishReading touch one row at most:
    whatever their outcome, every other id is answered as before, the number
    of rows is the same and the AUTOINCREMENT counter does not move. *)
Theorem updates_touch_one_row : forall clk id o db,
  (o = OpStartReading id \/ (exists req, o = OpUpdateBook id req)
   \/ (exists rating, o = OpFinishReading id rating)) ->
  (forall id', id' <> id ->
     fst (GetByID id' (run_op clk o db)) = fst (GetByID id' db))
  /\ List.length (rows (run_op clk o db)) = List.length (rows db)
  /\ seq (run_op clk o db) = seq db.
Proof.
  intros clk id o db Ho.
  assert (Hdb : run_op clk o db = db
                \/ exists req, run_op clk o db = updated_rows clk id req db).
  { destruct Ho as [-> | [[req ->] | [rating ->]]]; simpl.
    - destruct (StartReading_db clk id db) as [-> | ->]; eauto.
    - destruct (UpdateBook_db clk id req db) as [-> | ->]; eauto.
    - destruct (FinishReading_db clk id rating db) as [-> | ->]; eauto. }
  destruct Hdb as [-> | [req ->]]; [repeat split|].
  split; [|split].
  - intros id' Hne; unfold GetByID.
    rewrite (find_updated_rows_other clk id id' req db Hne).
    now destruct (find (has_id id') (rows db)).
  - unfold updated_rows; simpl; apply length_map.
  - reflexivity.
Qed.

Lemma updates_touch_one_row_witness :
  (forall id', id' <> 1 ->
     fst (GetByID id' (run_op (at_time 3000) (OpStartReading 1) db_two_books))
     = fst (GetByID id' db_two_books))
  /\ List.length (rows (run_op (at_time 3000) (OpStartReading 1) db_two_books))
     = List.length (rows db_two_books)
  /\ seq (run_op (at_time 3000) (OpStartReading 1) db_two_books) = seq db_two_books.
Proof.
  apply (updates_touch_one_row (at_time 3000) 1 (OpStartReading 1) db_two_books).
  left; reflexivity.
Defined.

(** X9.  UpdateBook does not look at the current status: on a book of any
    status, an update that carries only one of the four statuses succeeds and
    sets it.  The start-read date is stamped with the repository's time when
    the new status is "reading", the end-read date when it is "completed" or
    "dropped"; otherwise the dates stay, and so does the rating. *)
Theorem UpdateBook_sets_any_status : forall clk db id b s,
  store_ok db -> find (has_id id) (rows db) = Some b ->
  s = StatusNotStarted \/ s = StatusReading \/ s = StatusCompleted \/ s = StatusDropped ->
  exists b' db',
    UpdateBook clk id (only_status s) db = (Ok b', db')
    /\ Book.Status b' = s
    /\ Book.StartReadDate b'
       = (if String.eqb s StatusReading then Some (repo_now clk) else Book.StartReadDate b)
    /\ Book.EndReadDate b'
       = (if String.eqb s StatusCompleted || String.eqb s StatusDropped
          then Some (repo_now clk) else Book.EndReadDate b)
    /\ Book.Rating b' = Book.Rating b
    /\ find (has_id id) (rows db') = Some b'.
Proof.
  intros clk db id b s Hok Hf Hs.
  destruct (store_ok_row db id b Hok Hf) as (_ & _ & _ & Hra).
  rewrite (UpdateBook_found clk db id _ b Hok Hf); cbn [only_status UpdateBookRequest.Rating].
  rewrite (Update_eq clk id _ db b Hok Hf).
  assert (Hchk : check_constraints (apply_req (repo_now clk) (only_status s) b) = true).
  { unfold check_constraints; book_fields;
      cbn [only_status UpdateBookRequest.Status UpdateBookRequest.Rating or_else or_keep].
    rewrite Hra, andb_true_r.
    destruct Hs as [-> | [-> | [-> | ->]]]; reflexivity. }
  rewrite Hchk.
  assert (Hparts : exists a parts, setParts (repo_now clk) (only_status s) = a :: parts)
    by (exists (SetStatus s); eexists; reflexivity).
  destruct Hparts as (a & parts & ->).
  eexists; eexists; split; [reflexivity|].
  split; [reflexivity|].
  split; [book_fields; unfold stamps_start; cbn; now rewrite andb_true_r|].
  split; [book_fields; unfold stamps_end; cbn; now rewrite andb_true_r|].
  split; [reflexivity|].
  exact (find_updated_rows clk id (only_status s) db b Hf).
Qed.

Lemma db_completed_row : find (has_id 1) (rows db_completed) = Some book_completed.
Proof. reflexivity. Qed.

(** A completed book is put back to "reading", which StartReading refuses. *)
Lemma UpdateBook_sets_any_status_witness :
  exists b' db',
    UpdateBook (at_time 6000) 1 (only_status StatusReading) db_completed = (Ok b', db')
    /\ Book.Status b' = StatusReading
    /\ Book.StartReadDate b' = Some 6000
    /\ Book.EndReadDate b' = Some 5000
    /\ Book.Rating b' = Some 5
    /\ find (has_id 1) (rows db') = Some b'.
Proof.
  apply (UpdateBook_sets_any_status (at_time 6000) db_completed 1 book_completed
           StatusReading (reachable_store_ok _ db_completed_reachable) db_completed_row).
  right; left; reflexivity.
Defined.

(** X10.  An update that carries a status other than the four the schema
    allows is refused by the store: UpdateBook returns the update-failed error
    and the book keeps its status. *)
Theorem UpdateBook_rejects_unknown_status : forall clk db id req b s,
  store_ok db -> find (has_id id) (rows db) = Some b ->
  UpdateBookRequest.Status req = Some s -> check_status s = false ->
  rating_accepted req ->
  UpdateBook clk id req db = (Err ErrUpdateFailed, db).
Proof.
  intros clk db id req b s Hok Hf Hs Hbad Hacc.
  rewrite (UpdateBook_is_Update clk db id req b Hok Hf Hacc).
  rewrite (Update_eq clk id req db b Hok Hf).
  destruct (setParts (repo_now clk) req) as [|a parts] eqn:Hp.
  - apply setParts_nil in Hp; subst req; discriminate.
  - unfold check_constraints; book_fields; rewrite Hs; cbn [or_else].
    now rewrite Hbad.
Qed.

Lemma UpdateBook_rejects_unknown_status_witness :
  UpdateBook (at_time 2500) 1 (only_status "paused") db_created
  = (Err ErrUpdateFailed, db_created).
Proof.
  apply (UpdateBook_rejects_unknown_status (at_time 2500) db_created 1
           (only_status "paused") book_created "paused"
           (reachable_store_ok _ db_created_reachable) db_created_row eq_refl eq_refl).
  intros r Hr; discriminate.
Defined.

(** X11.  UpdateBook on a book of the table with a rating below 1 or above 5
    fails with the rating error before anything is written, whatever else the
    request carries. *)
Theorem UpdateBook_rejects_rating_out_of_range : forall clk db id req b r,
  store_ok db -> find (has_id id) (rows db) = Some b ->
  UpdateBookRequest.Rating req = Some r -> ~ 1 <= r <= 5 ->
  UpdateBook clk id req db = (Err (ErrRatingOutOfRange r), db).
Proof.
  intros clk db id req b r Hok Hf Hr Hout.
  rewrite (UpdateBook_found clk db id req b Hok Hf), Hr.
  destruct (rating_out_of_range r) eqn:Hrange; [reflexivity|].
  apply rating_in_range in Hrange; contradiction.
Qed.

Lemma UpdateBook_rejects_rating_out_of_range_witness :
  UpdateBook (at_time 2500) 1 (only_rating 0) db_created
  = (Err (ErrRatingOutOfRange 0), db_created).
Proof.
  apply (UpdateBook_rejects_rating_out_of_range (at_time 2500) db_created 1
           (only_rating 0) book_created 0
           (reachable_store_ok _ db_created_reachable) db_created_row eq_refl).
  lia.
Defined.

(** ** The two transitions, field by field *)

(** X12.  A successful StartReading changes three fields of the book and no
    other: the status becomes "reading", the start-read date the usecase's
    current time (a previous start-read date is overwritten) and updated-at the
    database time.  In particular a dropped book that is started again keeps
    its end-read date and its rating. *)
Theorem StartReading_changes_three_fields : forall clk db id b b' db',
  store_ok db -> find (has_id id) (rows db) = Some b ->
  StartReading clk id db = (Ok b', db') ->
  b' = Book.mk (Book.ID b) (Book.Title b) (Book.Author b) (Book.ISBN b) (Book.Publisher b)
         (Book.PublishedDate b) (Book.PurchaseDate b) (Book.PurchasePrice b)
         StatusReading (Some (uc_now clk)) (Book.EndReadDate b) (Book.Rating b)
         (Book.Notes b) (Book.Tags b) (Book.CreatedAt b) (db_now clk)
  /\ find (has_id id) (rows db') = Some b'.
Proof.
  intros clk db id b b' db' Hok Hf H.
  rewrite (StartReading_found clk db id b Hok Hf) in H.
  destruct (String.eqb (Book.Status b) StatusReading); [discriminate|].
  destruct (String.eqb (Book.Status b) StatusCompleted); [discriminate|].
  injection H as <- <-; split; [reflexivity|].
  exact (find_updated_rows clk id _ db b Hf).
Qed.

Definition book_restarted : Book.t :=
  Book.mk 1 "A" "B" "" "" None 1000 0 StatusReading (Some 4500) (Some 4000) None
    "gave up" "" 2000 4500.

Lemma StartReading_changes_three_fields_witness :
  book_restarted
  = Book.mk 1 "A" "B" "" "" None 1000 0 StatusReading (Some 4500)
      (Book.EndReadDate book_dropped) (Book.Rating book_dropped) "gave up" "" 2000 4500
  /\ find (has_id 1) (rows (run_op (at_time 4500) (OpStartReading 1) db_dropped))
     = Some book_restarted.
Proof.
  assert (Hrun : StartReading (at_time 4500) 1 db_dropped
                 = (Ok book_restarted, run_op (at_time 4500) (OpStartReading 1) db_dropped))
    by (vm_compute; reflexivity).
  exact (StartReading_changes_three_fields (at_time 4500) db_dropped 1 book_dropped
           book_restarted _ (reachable_store_ok _ db_dropped_reachable) db_dropped_row Hrun).
Defined.

(** X13.  A successful FinishReading changes the status to "completed", the
    end-read date to the usecase's current time, updated-at to the database
    time, and the rating when one is supplied; every other field, the
    start-read date included, is as before. *)
Theorem FinishReading_changes_four_fields : forall clk db id rating b b' db',
  store_ok db -> find (has_id id) (rows db) = Some b ->
  FinishReading clk id rating db = (Ok b', db') ->
  b' = Book.mk (Book.ID b) (Book.Title b) (Book.Author b) (Book.ISBN b) (Book.Publisher b)
         (Book.PublishedDate b) (Book.PurchaseDate b) (Book.PurchasePrice b)
         StatusCompleted (Book.StartReadDate b) (Some (uc_now clk))
         (or_keep rating (Book.Rating b))
         (Book.Notes b) (Book.Tags b) (Book.CreatedAt b) (db_now clk)
  /\ Book.Status b = StatusReading
  /\ find (has_id id) (rows db') = Some b'.
Proof.
  intros clk db id rating b b' db' Hok Hf H.
  rewrite (FinishReading_found clk db id rating b Hok Hf) in H.
  destruct (String.eqb_spec (Book.Status b) StatusReading) as [Hst|]; [|discriminate].
  simpl in H; destruct rating as [r|].
  - destruct (rating_out_of_range r); [discriminate|].
    injection H as <- <-; repeat split; [exact Hst|].
    exact (find_updated_rows clk id _ db b Hf).
  - injection H as <- <-; repeat split; [exact Hst|].
    exact (find_updated_rows clk id _ db b Hf).
Qed.

Lemma FinishReading_changes_four_fields_witness :
  book_completed
  = Book.mk 1 "A" "B" "" "" None 1000 0 StatusCompleted (Book.StartReadDate book_reading)
      (Some 5000) (Some 5) "" "" 2000 5000
  /\ Book.Status book_reading = StatusReading
  /\ find (has_id 1) (rows db_completed) = Some book_completed.
Proof.
  assert (Hrun : FinishReading (at_time 5000) 1 (Some 5) db_reading
                 = (Ok book_completed, db_completed)) by (vm_compute; reflexivity).
  exact (FinishReading_changes_four_fields (at_time 5000) db_reading 1 (Some 5)
           book_reading book_completed db_completed
           (reachable_store_ok _ db_reading_reachable) db_reading_row Hrun).
Defined.

(** X14.  The two transitions compose: on a book that is not started or was
    dropped, StartReading followed by FinishReading (with no rating or one in
    1..5) both succeed, and the book ends completed, with the start-read date
    of the first call, the end-read date of the second, the supplied rating (or
    the one it had) and every other field untouched; after that neither
    transition is accepted again. *)
Theorem start_then_finish : forall clk1 clk2 db id rating b,
  store_ok db -> find (has_id id) (rows db) = Some b ->
  Book.Status b = StatusNotStarted \/ Book.Status b = StatusDropped ->
  match rating with Some r => 1 <= r <= 5 | None => True end ->
  exists b1 db1 db2,
    StartReading clk1 id db = (Ok b1, db1)
    /\ FinishReading clk2 id rating db1
       = (Ok (Book.mk (Book.ID b) (Book.Title b) (Book.Author b) (Book.ISBN b)
                (Book.Publisher b) (Book.PublishedDate b) (Book.PurchaseDate b)
                (Book.PurchasePrice b) StatusCompleted (Some (uc_now clk1))
                (Some (uc_now clk2)) (or_keep rating (Book.Rating b))
                (Book.Notes b) (Book.Tags b) (Book.CreatedAt b) (db_now clk2)), db2)
    /\ (forall clk3, StartReading clk3 id db2 = (Err ErrAlreadyCompleted, db2))
    /\ (forall clk3 rating3, FinishReading clk3 id rating3 db2 = (Err ErrNotReading, db2)).
Proof.
  intros clk1 clk2 db id rating b Hok Hf Hst Hr.
  pose proof (preserves_StartReading clk1 id db Hok) as Hok1.
  rewrite (StartReading_found clk1 db id b Hok Hf) in Hok1 |- *.
  assert (Hgo : String.eqb (Book.Status b) StatusReading = false
                /\ String.eqb (Book.Status b) StatusCompleted = false)
    by (destruct Hst as [-> | ->]; split; reflexivity).
  destruct Hgo as [Hg1 Hg2]; rewrite Hg1, Hg2 in Hok1 |- *; simpl in Hok1.
  pose proof (find_updated_rows clk1 id (start_request (uc_now clk1)) db b Hf) as Hf1.
  set (b1 := touch_updated_at (db_now clk1)
               (apply_req (repo_now clk1) (start_request (uc_now clk1)) b)) in *.
  set (db1 := updated_rows clk1 id (start_request (uc_now clk1)) db) in *.
  pose proof (preserves_FinishReading clk2 id rating db1 Hok1) as Hok2.
  pose proof (find_updated_rows clk2 id (finish_request (uc_now clk2) rating) db1 b1 Hf1)
    as Hf2.
  assert (Hfin : FinishReading clk2 id rating db1
                 = (Ok (touch_updated_at (db_now clk2)
                          (apply_req (repo_now clk2) (finish_request (uc_now clk2) rating) b1)),
                    updated_rows clk2 id (finish_request (uc_now clk2) rating) db1)).
  { rewrite (FinishReading_found clk2 db1 id rating b1 Hok1 Hf1).
    destruct rating as [r|]; [|reflexivity].
    apply rating_in_range in Hr; simpl; now rewrite Hr. }
  rewrite Hfin in Hok2; simpl in Hok2.
  exists b1, db1; eexists; split; [reflexivity|].
  split; [rewrite Hfin; f_equal; now destruct rating|].
  split.
  - intros clk3; now rewrite (StartReading_found clk3 _ id _ Hok2 Hf2).
  - intros clk3 rating3; now rewrite (FinishReading_found clk3 _ id rating3 _ Hok2 Hf2).
Qed.

Lemma start_then_finish_witness :
  exists b1 db1 db2,
    StartReading (at_time 3000) 1 db_created = (Ok b1, db1)
    /\ FinishReading (at_time 5000) 1 (Some 5) db1 = (Ok book_completed, db2)
    /\ (forall clk3, StartReading clk3 1 db2 = (Err ErrAlreadyCompleted, db2))
    /\ (forall clk3 rating3, FinishReading clk3 1 rating3 db2 = (Err ErrNotReading, db2)).
Proof.
  apply (start_then_finish (at_time 3000) (at_time 5000) db_created 1 (Some 5) book_created
           (reachable_store_ok _ db_created_reachable) db_created_row).
  - left; reflexivity.
  - simpl; lia.
Defined.

(** ** Listing *)

Section Listing.
Context {E : SqlEngine}.

(** What the filter asks of a book, field by field. *)
Definition matches (filter : option BookFilter.t) (b : Book.t) : Prop :=
  match filter with
  | None => True
  | Some f =>
      (forall s, BookFilter.Status f = Some s -> Book.Status b = s)
      /\ (forall a, BookFilter.Author f = Some a -> Book.Author b = a)
      /\ (forall p, BookFilter.Publisher f = Some p -> Book.Publisher b = p)
      /\ (forall r, BookFilter.Rating f = Some r -> Book.Rating b = Some r)
      /\ (forall t, BookFilter.Tag f = Some t ->
            like (Book.Tags b) ("%" ++ t ++ "%")%string = true)
      /\ (forall q, BookFilter.Search f = Some q ->
            like (Book.Title b) ("%" ++ q ++ "%")%string = true
            \/ like (Book.Author b) ("%" ++ q ++ "%")%string = true)
  end.

Lemma forallb_opt_cond : forall A (o : option A) (c : A -> condition) b,
  forallb (fun k : condition => k b) (opt_cond o c) = true
  <-> (forall v, o = Some v -> c v b = true).
Proof.
  intros A [v|] c b; simpl.
  - rewrite andb_true_r; split; [now intros H v' [= <-] | auto].
  - split; [discriminate | reflexivity].
Qed.

Lemma rating_is_true : forall r b, rating_is r b = true <-> Book.Rating b = Some r.
Proof.
  intros r b; unfold rating_is; destruct (Book.Rating b) as [v|].
  - rewrite Z.eqb_eq; split; [now intros -> | now intros [= ->]].
  - split; discriminate.
Qed.

Lemma conditions_match : forall filter b,
  forallb (fun k : condition => k b) (List_conditions filter) = true <-> matches filter b.
Proof.
  intros [f|] b; simpl; [|tauto].
  rewrite !forallb_app, !andb_true_iff, !forallb_opt_cond.
  repeat apply and_iff_compat_lr.
  assert (Heq : forall (get : Book.t -> string) (o : option string),
            (forall v, o = Some v -> String.eqb (get b) v = true)
            <-> (forall v, o = Some v -> get b = v)).
  { intros get o; split; intros H v Hv; apply String.eqb_eq || apply String.eqb_eq in H;
      eauto. }
  rewrite !Heq.
  assert (Hra : (forall v, BookFilter.Rating f = Some v -> rating_is v b = true)
                <-> (forall r, BookFilter.Rating f = Some r -> Book.Rating b = Some r)).
  { split; intros H v Hv; apply rating_is_true; auto. }
  rewrite Hra.
  assert (Hse : (forall v, BookFilter.Search f = Some v ->
                   like (Book.Title b) ("%" ++ v ++ "%")%string
                   || like (Book.Author b) ("%" ++ v ++ "%")%string = true)
                <-> (forall q, BookFilter.Search f = Some q ->
                       like (Book.Title b) ("%" ++ q ++ "%")%string = true
                       \/ like (Book.Author b) ("%" ++ q ++ "%")%string = true)).
  { split; intros H v Hv; apply orb_true_iff; auto. }
  rewrite Hse; tauto.
Qed.

Lemma select_where_filter : forall conditions l,
  select_where conditions l = filter (fun b => forallb (fun k : condition => k b) conditions) l.
Proof.
  intros [|c cs] l; simpl; [|reflexivity].
  induction l as [|x l IH]; simpl; [reflexivity | now rewrite <- IH].
Qed.

(** X15.  List without a limit returns the books of the table that match the
    filter, each exactly once and no other, and does not change the table.  A
    book matches when it agrees with every field the filter carries: status,
    author, publisher and rating by equality (an unrated book matches no
    rating), the tag by LIKE on the tags, the search term by LIKE on the title
    or on the author. *)
Theorem List_unbounded_returns_the_matches : forall filter offset db,
  exists books,
    List filter 0 offset db = (Ok books, db)
    /\ Permutation books (select_where (List_conditions filter) (rows db))
    /\ (forall b, In b books <-> In b (rows db) /\ matches filter b)
    /\ (store_ok db -> NoDup (map Book.ID books)).
Proof.
  intros filter offset db; rewrite List_unbounded.
  eexists; split; [reflexivity|].
  pose proof (order_by_perm (select_where (List_conditions filter) (rows db))) as Hperm.
  split; [exact Hperm|]; split.
  - intros b; rewrite <- conditions_match; split.
    + intros Hin; apply (Permutation_in _ Hperm) in Hin.
      rewrite select_where_filter in Hin; now apply filter_In in Hin.
    + intros Hin; apply (Permutation_in _ (Permutation_sym Hperm)).
      rewrite select_where_filter; now apply filter_In.
  - intros [Hs _ _].
    apply (Permutation_NoDup (Permutation_map Book.ID (Permutation_sym Hperm))).
    now apply sorted_ids_NoDup, select_where_sorted.
Qed.

Lemma firstn_then_next : forall (l : list Book.t) n m,
  firstn n l ++ firstn m (skipn n l) = firstn (n + m) l.
Proof.
  intros l n; revert l; induction n as [|n IH]; intros l m; simpl; [reflexivity|].
  destruct l as [|x l]; simpl; [now rewrite firstn_nil | now rewrite IH].
Qed.

Lemma List_page : forall filter limit offset db,
  0 < limit ->
  List filter limit offset db
  = (Ok (firstn (Z.to_nat limit)
           (skipn (Z.to_nat offset)
              (order_by_created_at_desc (select_where (List_conditions filter) (rows db))))),
     db).
Proof.
  intros filter limit offset db Hl; unfold List.
  apply Z.ltb_lt in Hl; rewrite Hl.
  destruct (Z.ltb_spec 0 offset) as [|Hle]; [reflexivity|].
  now replace (Z.to_nat offset) with 0%nat by lia.
Qed.

(** X16.  With a limit above 0, List returns the [limit] books that follow the
    first [offset] books of the unbounded list (an offset of 0 or below skips
    nothing), so never more than [limit] books; and a page followed by the
    next page is the page of both limits together. *)
Theorem List_pages : forall filter limit limit' offset db all,
  0 < limit -> 0 < limit' -> 0 <= offset ->
  List filter 0 0 db = (Ok all, db) ->
  exists page next,
    List filter limit offset db = (Ok page, db)
    /\ List filter limit' (offset + limit) db = (Ok next, db)
    /\ page = firstn (Z.to_nat limit) (skipn (Z.to_nat offset) all)
    /\ Z.of_nat (List.length page) <= limit
    /\ List filter (limit + limit') offset db = (Ok (page ++ next), db).
Proof.
  intros filter limit limit' offset db all Hl Hl' Ho Hall.
  rewrite List_unbounded in Hall; injection Hall as <-.
  rewrite !List_page by lia.
  eexists; eexists; split; [reflexivity|]. split; [reflexivity|].
  split; [reflexivity|]. split.
  - pose proof (firstn_le_length (Z.to_nat limit)
                  (skipn (Z.to_nat offset)
                     (order_by_created_at_desc
                        (select_where (List_conditions filter) (rows db))))).
    lia.
  - f_equal; f_equal.
    replace (Z.to_nat (offset + limit)) with (Z.to_nat limit + Z.to_nat offset)%nat by lia.
    rewrite <- skipn_skipn, firstn_then_next.
    f_equal; lia.
Qed.

End Listing.

Lemma List_pages_witness :
  exists page next,
    List (E := tie_keeping_engine) None 1 0 db_two_books = (Ok page, db_two_books)
    /\ List (E := tie_keeping_engine) None 1 (0 + 1) db_two_books = (Ok next, db_two_books)
    /\ page = firstn (Z.to_nat 1) (skipn (Z.to_nat 0) [book_created; book_second])
    /\ Z.of_nat (List.length page) <= 1
    /\ List (E := tie_keeping_engine) None (1 + 1) 0 db_two_books
       = (Ok (page ++ next), db_two_books).
Proof.
  apply (List_pages (E := tie_keeping_engine) None 1 1 0 db_two_books
           [book_created; book_second]); try lia.
  reflexivity.
Defined.

(** ** Pages of the usecase and of the handler *)

Lemma wrap64_small : forall z, - 2 ^ 63 <= z < 2 ^ 63 -> wrap64 z = z.
Proof. intros z Hz; unfold wrap64; rewrite Z.mod_small; lia. Qed.







Definition query_page_two : ListQuery := mkListQuery "2" "1" "" "" "" "" "" "".


(** The second of two pages of one book each. *)
Example Handler_ListBooks_page_two :
  Handler.ListBooks (E := tie_keeping_engine) query_page_two db_two_books
  = (sendSuccessResponse StatusOK (ListData [book_second] 2 2 1 2), db_two_books).
Proof. reflexivity. Qed.

(** X19.  The rating parameter of GET /books restricts the list only when it
    is written as an integer between 1 and 5; any other value (absent, not a
    number, out of range) is ignored, not rejected. *)
Theorem rating_parameter_used_only_in_range : forall query r,
  BookFilter.Rating (Handler.filter_of query) = Some r
  <-> Atoi (q_rating query) = (r, None) /\ 1 <= r <= 5.
Proof.
  intros query r; unfold Handler.filter_of; cbn [BookFilter.Rating].
  destruct (String.eqb_spec (q_rating query) "") as [Hempty|_].
  - rewrite Hempty; simpl; split; [discriminate | intros [H _]; discriminate].
  - destruct (Atoi (q_rating query)) as [n [err|]].
    + split; [discriminate | intros [H _]; discriminate].
    + destruct (Z.leb_spec 1 n) as [Hlo|Hlo], (Z.leb_spec n 5) as [Hhi|Hhi]; simpl;
        (split; [intros Heq | intros [Heq Hr]]); inversion Heq; subst;
        try lia; try reflexivity.
      split; [reflexivity | lia].
Qed.

(** ** strconv.Atoi *)

Definition digit_value (c : ascii) : Z := Z.of_nat (nat_of_ascii c) - 48.

Fixpoint all_digits (s : string) : bool :=
  match s with
  | EmptyString => true
  | String c s' => is_digit c && all_digits s'
  end.

(** The number a string of digits denotes, read after the digits [n]. *)
Fixpoint decimal_value (s : string) (n : Z) : Z :=
  match s with
  | EmptyString => n
  | String c s' => decimal_value s' (n * 10 + digit_value c)
  end.

Lemma is_digit_value : forall c, is_digit c = true -> 0 <= digit_value c <= 9.
Proof.
  unfold is_digit, digit_value; intros c H.
  apply andb_prop in H as [H1 H2]; apply Z.leb_le in H1, H2; lia.
Qed.

Lemma decimal_value_grows : forall s n,
  all_digits s = true -> 0 <= n -> n <= decimal_value s n.
Proof.
  induction s as [|c s IH]; simpl; intros n Hs Hn; [lia|].
  apply andb_prop in Hs as [Hc Hs]; apply is_digit_value in Hc.
  specialize (IH (n * 10 + digit_value c) Hs ltac:(lia)); lia.
Qed.

Lemma parse_digits_value : forall s n,
  all_digits s = true -> 0 <= n <= 18446744073709551615 ->
  parse_digits s n =
  if decimal_value s n <=? 18446744073709551615 then DigitsOk (decimal_value s n)
  else DigitsRange.
Proof.
  induction s as [|c s IH]; intros n Hs Hn.
  - simpl; destruct (Z.leb_spec n 18446744073709551615); [reflexivity | lia].
  - cbn [all_digits] in Hs; apply andb_prop in Hs as [Hc Hs].
    cbn [parse_digits decimal_value]; rewrite Hc.
    change (Z.of_nat (nat_of_ascii c) - 48) with (digit_value c).
    change (2 ^ 64 / 10 + 1) with 1844674407370955162.
    change (2 ^ 64 - 1) with 18446744073709551615.
    apply is_digit_value in Hc.
    pose proof (decimal_value_grows s (n * 10 + digit_value c) Hs ltac:(lia)) as Hgrow.
    destruct (Z.leb_spec 1844674407370955162 n) as [Hcut|Hcut].
    + destruct (Z.leb_spec (decimal_value s (n * 10 + digit_value c)) 18446744073709551615);
        [lia | reflexivity].
    + destruct (Z.ltb_spec 18446744073709551615 (n * 10 + digit_value c)) as [Hover|Hfit].
      * destruct (Z.leb_spec (decimal_value s (n * 10 + digit_value c))
                    18446744073709551615); [lia | reflexivity].
      * apply IH; [exact Hs | lia].
Qed.

Lemma digit_is_no_sign : forall c,
  is_digit c = true -> Ascii.eqb c "-" = false /\ Ascii.eqb c "+" = false.
Proof.
  intros c Hc; split.
  - destruct (Ascii.eqb_spec c "-") as [->|]; [discriminate | reflexivity].
  - destruct (Ascii.eqb_spec c "+") as [->|]; [discriminate | reflexivity].
Qed.

(** X20.  On a non-empty string of decimal digits, which is what the routes
    let through as an id, Atoi returns the number the digits denote and no
    error when that number is below 2^63, and the largest int with a range
    error otherwise: it never returns a negative id and never a syntax error. *)
Theorem Atoi_of_digits : forall s,
  s <> "" -> all_digits s = true ->
  Atoi s = if decimal_value s 0 <? 2 ^ 63 then (decimal_value s 0, None)
           else (2 ^ 63 - 1, Some ErrRange).
Proof.
  intros s Hne Hs; destruct s as [|c s']; [contradiction|].
  pose proof Hs as Hs0; cbn [all_digits] in Hs0; apply andb_prop in Hs0 as [Hc _].
  destruct (digit_is_no_sign c Hc) as [Hminus Hplus].
  unfold Atoi; rewrite Hminus, Hplus; cbn [orb negb andb].
  rewrite (parse_digits_value (String c s') 0 Hs ltac:(lia)).
  pose proof (decimal_value_grows (String c s') 0 Hs ltac:(lia)) as Hpos.
  change (2 ^ 63) with 9223372036854775808.
  destruct (Z.leb_spec (decimal_value (String c s') 0) 18446744073709551615) as [Hfit|Hbig].
  - destruct (Z.leb_spec 9223372036854775808 (decimal_value (String c s') 0));
      destruct (Z.ltb_spec (decimal_value (String c s') 0) 9223372036854775808);
      try lia; reflexivity.
  - destruct (Z.ltb_spec (decimal_value (String c s') 0) 9223372036854775808);
      [lia | reflexivity].
Qed.

Lemma Atoi_of_digits_witness :
  Atoi "999999" = if decimal_value "999999" 0 <? 2 ^ 63 then (decimal_value "999999" 0, None)
                  else (2 ^ 63 - 1, Some ErrRange).
Proof.
  apply (Atoi_of_digits "999999"); [discriminate | reflexivity].
Defined.

Lemma parse_digits_nonneg : forall s n un,
  0 <= n -> parse_digits s n = DigitsOk un -> 0 <= un.
Proof.
  induction s as [|c s IH]; simpl; intros n un Hn.
  - now intros [= <-].
  - destruct (is_digit c) eqn:Hc; [|discriminate].
    apply is_digit_value in Hc; unfold digit_value in Hc.
    destruct (_ <=? n); [discriminate|].
    destruct (_ <? _); [discriminate|].
    apply IH; lia.
Qed.

(** X21.  Whatever the string, Atoi returns an int: the value is within the
    64-bit range, it is 0 with a syntax error and one of the two bounds with a
    range error. *)
Theorem Atoi_value_in_range : forall s,
  - 2 ^ 63 <= fst (Atoi s) <= 2 ^ 63 - 1
  /\ (snd (Atoi s) = Some ErrSyntax -> fst (Atoi s) = 0)
  /\ (snd (Atoi s) = Some ErrRange ->
      fst (Atoi s) = 2 ^ 63 - 1 \/ fst (Atoi s) = - 2 ^ 63).
Proof.
  intros s; unfold Atoi.
  destruct s as [|c s']; [simpl; repeat split; try lia; discriminate|].
  set (neg := Ascii.eqb c "-").
  set (digits := if neg || Ascii.eqb c "+" then s' else String c s').
  destruct digits as [|d ds] eqn:Hd; [simpl; repeat split; try lia; discriminate|].
  destruct (parse_digits (String d ds) 0) as [un| |] eqn:Hp.
  - apply parse_digits_nonneg in Hp; [|lia].
    change (2 ^ 63) with 9223372036854775808.
    destruct neg; cbn [negb andb].
    + destruct (Z.ltb_spec 9223372036854775808 un); simpl;
        (split; [lia|]); split; try discriminate; auto.
    + destruct (Z.leb_spec 9223372036854775808 un); simpl;
        (split; [lia|]); split; try discriminate; auto.
  - simpl; split; [lia|]; split; [reflexivity | discriminate].
  - change (2 ^ 63) with 9223372036854775808.
    destruct neg; simpl; (split; [lia|]); split; try discriminate; auto.
Qed.

(** ** Statistics *)

Definition count_of (p : Book.t -> bool) (l : list Book.t) : Z :=
  Z.of_nat (List.length (filter p l)).

Definition sum_of (f : Book.t -> Z) (l : list Book.t) : Z :=
  fold_right (fun b acc => f b + acc) 0 l.

Definition rated (b : Book.t) : bool :=
  match Book.Rating b with
  | Some _ => true
  | None => false
  end.

Definition rating_or_zero (b : Book.t) : Z :=
  match Book.Rating b with
  | Some r => r
  | None => 0
  end.

(** Bought on or after the first instant of the month. *)
Definition bought_since (monthStart : Time) (b : Book.t) : bool :=
  on_or_after (Book.PurchaseDate b) monthStart.

(** Completed, with an end-read date on or after the first instant of the month. *)
Definition completed_since (monthStart : Time) (b : Book.t) : bool :=
  match Book.EndReadDate b with
  | Some e => on_or_after e monthStart
  | None => false
  end && String.eqb (Book.Status b) StatusCompleted.

Lemma count_of_perm : forall p l l', Permutation l l' -> count_of p l = count_of p l'.
Proof.
  intros p l l' H; unfold count_of; f_equal.
  induction H as [|x l l' _ IH|x y l|l l' l'' _ IH1 _ IH2]; simpl.
  - reflexivity.
  - destruct (p x); simpl; now rewrite IH.
  - destruct (p x), (p y); reflexivity.
  - now rewrite IH1.
Qed.

Lemma sum_of_perm : forall f l l', Permutation l l' -> sum_of f l = sum_of f l'.
Proof.
  intros f l l' H; unfold sum_of.
  induction H as [|x l l' _ IH|x y l|l l' l'' _ IH1 _ IH2]; simpl; lia.
Qed.

Lemma count_of_bounds : forall p l, 0 <= count_of p l <= Z.of_nat (List.length l).
Proof.
  intros p l; unfold count_of; pose proof (filter_length_le p l); lia.
Qed.

Lemma wrap64_range : forall z, - 2 ^ 63 <= wrap64 z < 2 ^ 63.
Proof.
  intros z; unfold wrap64.
  pose proof (Z.mod_pos_bound (z + 2 ^ 63) (2 ^ 64) ltac:(lia)); lia.
Qed.

Lemma wrap64_add_l : forall a b, wrap64 (wrap64 a + b) = wrap64 (a + b).
Proof.
  intros a b; unfold wrap64; f_equal.
  replace ((a + 2 ^ 63) mod 2 ^ 64 - 2 ^ 63 + b + 2 ^ 63)
    with ((a + 2 ^ 63) mod 2 ^ 64 + b) by lia.
  rewrite Zplus_mod_idemp_l; f_equal; lia.
Qed.

Section StatisticsFold.
Variable monthStart : Time.

Let run (l : list Book.t) (acc : totals) : totals := fold_left (stats_step monthStart) l acc.

Lemma fold_totalSpent : forall l acc,
  - 2 ^ 63 <= totalSpent acc < 2 ^ 63 ->
  totalSpent (run l acc) = wrap64 (totalSpent acc + sum_of Book.PurchasePrice l).
Proof.
  unfold run, sum_of; induction l as [|x l IH]; intros acc Hacc;
    cbn [fold_left fold_right].
  - rewrite Z.add_0_r; symmetry; now apply wrap64_small.
  - rewrite IH by (cbn [stats_step totalSpent]; apply wrap64_range).
    cbn [stats_step totalSpent]; rewrite wrap64_add_l; f_equal; lia.
Qed.

Lemma fold_ratingCount : forall l acc,
  0 <= ratingCount acc -> ratingCount acc + Z.of_nat (List.length l) < 2 ^ 63 ->
  ratingCount (run l acc) = ratingCount acc + count_of rated l.
Proof.
  unfold run, count_of; induction l as [|x l IH]; intros acc H0 Hb;
    cbn [fold_left filter List.length] in *; [lia|].
  assert (Hstep : ratingCount (stats_step monthStart acc x)
                  = ratingCount acc + (if rated x then 1 else 0)).
  { unfold stats_step, rated; cbn [ratingCount].
    destruct (Book.Rating x); [apply wrap64_small|]; lia. }
  rewrite IH by (rewrite Hstep; destruct (rated x); lia).
  rewrite Hstep; destruct (rated x); cbn [List.length]; lia.
Qed.

Lemma fold_ratingSum : forall l acc,
  Forall (fun b => check_constraints b = true) l ->
  0 <= ratingSum acc -> ratingSum acc + 5 * Z.of_nat (List.length l) < 2 ^ 63 ->
  ratingSum (run l acc) = ratingSum acc + sum_of rating_or_zero l.
Proof.
  unfold run, sum_of; induction l as [|x l IH]; intros acc Hc H0 Hb;
    cbn [fold_left fold_right List.length] in *; [lia|].
  inversion Hc as [|? ? Hx Hl]; subst.
  apply andb_prop in Hx as [_ Hx].
  assert (Hstep : ratingSum (stats_step monthStart acc x) = ratingSum acc + rating_or_zero x
                  /\ 0 <= rating_or_zero x <= 5).
  { unfold stats_step, rating_or_zero; cbn [ratingSum].
    destruct (Book.Rating x) as [r|]; [|lia].
    rewrite check_rating_Some in Hx; apply negb_true_iff, rating_in_range in Hx.
    rewrite wrap64_small; lia. }
  destruct Hstep as [Hstep Hr].
  rewrite IH by (try assumption; rewrite Hstep; lia).
  rewrite Hstep; lia.
Qed.

Lemma fold_booksThisMonth : forall l acc,
  0 <= booksThisMonth acc -> booksThisMonth acc + Z.of_nat (List.length l) < 2 ^ 63 ->
  booksThisMonth (run l acc) = booksThisMonth acc + count_of (bought_since monthStart) l.
Proof.
  unfold run, count_of; induction l as [|x l IH]; intros acc H0 Hb;
    cbn [fold_left filter List.length] in *; [lia|].
  assert (Hstep : booksThisMonth (stats_step monthStart acc x)
                  = booksThisMonth acc + (if bought_since monthStart x then 1 else 0)).
  { unfold stats_step, bought_since; cbn [booksThisMonth].
    destruct (on_or_after (Book.PurchaseDate x) monthStart); [apply wrap64_small|]; lia. }
  rewrite IH by (rewrite Hstep; destruct (bought_since monthStart x); lia).
  rewrite Hstep; destruct (bought_since monthStart x); cbn [List.length]; lia.
Qed.

Lemma fold_completedThisMonth : forall l acc,
  0 <= completedThisMonth acc ->
  completedThisMonth acc + Z.of_nat (List.length l) < 2 ^ 63 ->
  completedThisMonth (run l acc)
  = completedThisMonth acc + count_of (completed_since monthStart) l.
Proof.
  unfold run, count_of; induction l as [|x l IH]; intros acc H0 Hb;
    cbn [fold_left filter List.length] in *; [lia|].
  assert (Hstep : completedThisMonth (stats_step monthStart acc x)
                  = completedThisMonth acc
                    + (if completed_since monthStart x then 1 else 0)).
  { unfold stats_step, completed_since; cbn [completedThisMonth].
    destruct (match Book.EndReadDate x with
              | Some e => on_or_after e monthStart
              | None => false
              end && String.eqb (Book.Status x) StatusCompleted)%bool;
      [apply wrap64_small|]; lia. }
  rewrite IH by (rewrite Hstep; destruct (completed_since monthStart x); lia).
  rewrite Hstep; destruct (completed_since monthStart x); cbn [List.length]; lia.
Qed.

End StatisticsFold.

Lemma rating_sum_bounds : forall l,
  Forall (fun b => check_constraints b = true) l ->
  count_of rated l <= sum_of rating_or_zero l <= 5 * count_of rated l.
Proof.
  unfold count_of, sum_of; induction 1 as [|x l Hx Hl IH];
    cbn [filter fold_right List.length]; [lia|].
  apply andb_prop in Hx as [_ Hx].
  assert (Hr : (rated x = true /\ 1 <= rating_or_zero x <= 5)
               \/ (rated x = false /\ rating_or_zero x = 0)).
  { unfold rated, rating_or_zero; destruct (Book.Rating x) as [r|]; [left | now right].
    rewrite check_rating_Some in Hx; apply negb_true_iff, rating_in_range in Hx; auto. }
  destruct Hr as [[-> Hr] | [-> ->]]; cbn [List.length]; lia.
Qed.

Lemma count_of_zero : forall p l, count_of p l = 0 <-> forall b, In b l -> p b = false.
Proof.
  intros p l; unfold count_of; induction l as [|x l IH]; simpl.
  - split; [now intros | reflexivity].
  - destruct (p x) eqn:Hx; simpl.
    + split; [lia | intros H; specialize (H x (or_introl eq_refl)); congruence].
    + rewrite IH; split; [intros H b [<- | Hb]; auto | intros H b Hb; apply H; now right].
Qed.

Lemma count_of_le : forall (p q : Book.t -> bool) l,
  (forall b, p b = true -> q b = true) -> count_of p l <= count_of q l.
Proof.
  intros p q l Hpq; unfold count_of; induction l as [|x l IH]; simpl; [lia|].
  destruct (p x) eqn:Hp; [rewrite (Hpq x Hp)|destruct (q x)]; simpl List.length; lia.
Qed.

Lemma GetStatistics_eq : forall (E : SqlEngine) clk db,
  GetStatistics clk db =
  let acc := fold_left (stats_step (month_start clk)) (order_by_created_at_desc (rows db))
               (mkTotals 0 0 0 0 0) in
  (Ok (mkStats (Z.of_nat (List.length (rows db)))
         (count_of (has_status StatusNotStarted) (rows db))
         (count_of (has_status StatusReading) (rows db))
         (count_of (has_status StatusCompleted) (rows db))
         (count_of (has_status StatusDropped) (rows db))
         (totalSpent acc)
         (if 0 <? ratingCount acc then Some (ratingSum acc, ratingCount acc) else None)
         (booksThisMonth acc) (completedThisMonth acc)), db).
Proof. reflexivity. Qed.

(** X22.  The average rating of the statistics is absent exactly when no book
    of the table is rated.  Otherwise it is the sum of the ratings over the
    number of rated books, whatever order the engine lists the books in, and so
    lies between 1 and 5.  (For a table that satisfies the schema and holds
    fewer than 2^60 books.) *)
Theorem GetStatistics_average_rating : forall (E : SqlEngine) clk db,
  store_ok db -> Z.of_nat (List.length (rows db)) < 2 ^ 60 ->
  exists stats,
    GetStatistics clk db = (Ok stats, db)
    /\ AverageRating stats
       = (if 0 <? count_of rated (rows db)
          then Some (sum_of rating_or_zero (rows db), count_of rated (rows db))
          else None)
    /\ (AverageRating stats = None <-> forall b, In b (rows db) -> Book.Rating b = None)
    /\ count_of rated (rows db) <= sum_of rating_or_zero (rows db)
       <= 5 * count_of rated (rows db).
Proof.
  intros E clk db [_ _ Hc] Hsize; rewrite GetStatistics_eq; cbv zeta.
  pose proof (order_by_perm (rows db)) as Hperm.
  pose proof (Permutation_length Hperm) as Hlen.
  assert (Hc' : Forall (fun b => check_constraints b = true)
                  (order_by_created_at_desc (rows db)))
    by (apply (Permutation_Forall (Permutation_sym Hperm)); exact Hc).
  eexists; split; [reflexivity|]; cbn [AverageRating].
  rewrite fold_ratingCount, fold_ratingSum by (cbn [ratingCount ratingSum]; try assumption; lia).
  cbn [ratingCount ratingSum].
  rewrite (count_of_perm rated _ _ Hperm), (sum_of_perm rating_or_zero _ _ Hperm), !Z.add_0_l.
  split; [reflexivity|]. split; [|now apply rating_sum_bounds].
  pose proof (count_of_bounds rated (rows db)) as Hb.
  destruct (Z.ltb_spec 0 (count_of rated (rows db))) as [Hpos|Hzero].
  - split; [discriminate|].
    intros Hnone; assert (H0 : count_of rated (rows db) = 0); [|lia].
    apply count_of_zero; intros b Hb'; unfold rated; now rewrite (Hnone b Hb').
  - split; [intros _|reflexivity].
    assert (H0 : count_of rated (rows db) = 0) by lia.
    intros b Hin; pose proof (proj1 (count_of_zero rated (rows db)) H0 b Hin) as Hr.
    unfold rated in Hr; now destruct (Book.Rating b).
Qed.

Lemma GetStatistics_average_rating_witness :
  exists stats,
    GetStatistics (E := tie_keeping_engine) (at_time 6000) db_completed
    = (Ok stats, db_completed)
    /\ AverageRating stats
       = (if 0 <? count_of rated (rows db_completed)
          then Some (sum_of rating_or_zero (rows db_completed),
                     count_of rated (rows db_completed))
          else None)
    /\ (AverageRating stats = None
        <-> forall b, In b (rows db_completed) -> Book.Rating b = None)
    /\ count_of rated (rows db_completed) <= sum_of rating_or_zero (rows db_completed)
       <= 5 * count_of rated (rows db_completed).
Proof.
  apply (GetStatistics_average_rating tie_keeping_engine (at_time 6000) db_completed
           (reachable_store_ok _ db_completed_reachable)).
  vm_compute; reflexivity.
Defined.

Lemma completed_since_completed : forall monthStart b,
  completed_since monthStart b = true -> has_status StatusCompleted b = true.
Proof.
  intros monthStart b H; unfold completed_since in H.
  apply andb_prop in H as [_ H]; now rewrite has_status_eq.
Qed.

(** X23.  books_this_month counts the books whose purchase date is on or
    after the start of the month and completed_this_month the completed books
    whose end-read date is; neither depends on the order the engine lists the
    books in, the first never exceeds total_books and the second never exceeds
    completed_books.  (For a table of fewer than 2^62 books.) *)
Theorem GetStatistics_month_counters : forall (E : SqlEngine) clk db,
  Z.of_nat (List.length (rows db)) < 2 ^ 62 ->
  exists stats,
    GetStatistics clk db = (Ok stats, db)
    /\ BooksThisMonth stats = count_of (bought_since (month_start clk)) (rows db)
    /\ CompletedThisMonth stats = count_of (completed_since (month_start clk)) (rows db)
    /\ 0 <= BooksThisMonth stats <= TotalBooks stats
    /\ 0 <= CompletedThisMonth stats <= CompletedBooks stats.
Proof.
  intros E clk db Hsize; rewrite GetStatistics_eq; cbv zeta.
  pose proof (order_by_perm (rows db)) as Hperm.
  pose proof (Permutation_length Hperm) as Hlen.
  eexists; split; [reflexivity|].
  cbn [BooksThisMonth CompletedThisMonth TotalBooks CompletedBooks].
  rewrite fold_booksThisMonth, fold_completedThisMonth
    by (cbn [booksThisMonth completedThisMonth]; lia).
  cbn [booksThisMonth completedThisMonth].
  rewrite (count_of_perm _ _ _ Hperm), (count_of_perm (completed_since _) _ _ Hperm),
    !Z.add_0_l.
  split; [reflexivity|]. split; [reflexivity|].
  pose proof (count_of_bounds (bought_since (month_start clk)) (rows db)).
  pose proof (count_of_bounds (completed_since (month_start clk)) (rows db)).
  pose proof (count_of_le (completed_since (month_start clk)) (has_status StatusCompleted)
                (rows db) (completed_since_completed (month_start clk))).
  split; lia.
Qed.

Lemma GetStatistics_month_counters_witness :
  exists stats,
    GetStatistics (E := tie_keeping_engine) (mkClock 6000 6000 6000 4000) db_completed
    = (Ok stats, db_completed)
    /\ BooksThisMonth stats = count_of (bought_since 4000) (rows db_completed)
    /\ CompletedThisMonth stats = count_of (completed_since 4000) (rows db_completed)
    /\ 0 <= BooksThisMonth stats <= TotalBooks stats
    /\ 0 <= CompletedThisMonth stats <= CompletedBooks stats.
Proof.
  apply (GetStatistics_month_counters tie_keeping_engine (mkClock 6000 6000 6000 4000)
           db_completed).
  vm_compute; reflexivity.
Defined.

(** X24.  total_spent is the sum of the purchase prices of all books, reduced
    to 64 bits, on every engine and every table; GetStatistics changes nothing
    in the table. *)
Theorem GetStatistics_total_spent : forall (E : SqlEngine) clk db,
  exists stats,
    GetStatistics clk db = (Ok stats, db)
    /\ TotalSpent stats = wrap64 (sum_of Book.PurchasePrice (rows db)).
Proof.
  intros E clk db; rewrite GetStatistics_eq; cbv zeta.
  eexists; split; [reflexivity|]; cbn [TotalSpent].
  rewrite fold_totalSpent by (cbn [totalSpent]; lia).
  cbn [totalSpent]; rewrite Z.add_0_l.
  now rewrite (sum_of_perm Book.PurchasePrice _ _ (order_by_perm (rows db))).
Qed.

(** ** Error responses *)

Lemma usecase_error_keeps_table : forall A (r : result A) (db db' : DB) clk o,
  store_ok db ->
  op_error clk o db = error_of r -> run_op clk o db = db' ->
  (exists e, r = Err e) -> db' = db.
Proof.
  intros A r db db' clk o Hok Herr Hrun [e ->]; simpl in Herr.
  rewrite <- Hrun; exact (op_error_keeps_table clk o db e Hok Herr).
Qed.

(** X25.  A handler of a writing operation that does not answer with its
    success status (201 for create, 200 for the others) has written nothing:
    the table is as it was before the request. *)
Theorem error_response_means_no_write : forall clk db,
  store_ok db ->
  (forall req,
     StatusCode (fst (Handler.CreateBook clk req db)) <> StatusCreated ->
     snd (Handler.CreateBook clk req db) = db)
  /\ (forall idStr req,
        StatusCode (fst (Handler.UpdateBook clk idStr req db)) <> StatusOK ->
        snd (Handler.UpdateBook clk idStr req db) = db)
  /\ (forall idStr,
        StatusCode (fst (Handler.DeleteBook idStr db)) <> StatusOK ->
        snd (Handler.DeleteBook idStr db) = db)
  /\ (forall idStr,
        StatusCode (fst (Handler.StartReading clk idStr db)) <> StatusOK ->
        snd (Handler.StartReading clk idStr db) = db)
  /\ (forall idStr reqBody,
        StatusCode (fst (Handler.FinishReading clk idStr reqBody db)) <> StatusOK ->
        snd (Handler.FinishReading clk idStr reqBody db) = db).
Proof.
  intros clk db Hok; repeat match goal with |- _ /\ _ => split end.
  - intros [req|]; unfold Handler.CreateBook; [|reflexivity].
    destruct (CreateBook clk req db) as [[b|e] db'] eqn:H; simpl; [congruence|].
    intros _.
    apply (usecase_error_keeps_table _ (@Err Book.t e) db db' clk (OpCreateBook req) Hok);
      simpl; rewrite ?H; eauto.
  - intros idStr req; unfold Handler.UpdateBook.
    destruct (Atoi idStr) as [id [err|]]; [reflexivity|].
    destruct req as [req|]; [|reflexivity].
    destruct (UpdateBook clk id req db) as [[b|e] db'] eqn:H; simpl; [congruence|].
    intros _.
    apply (usecase_error_keeps_table _ (@Err Book.t e) db db' clk (OpUpdateBook id req) Hok);
      simpl; rewrite ?H; eauto.
  - intros idStr; unfold Handler.DeleteBook.
    destruct (Atoi idStr) as [id [err|]]; [reflexivity|].
    destruct (DeleteBook id db) as [[u|e] db'] eqn:H; simpl; [congruence|].
    intros _.
    apply (usecase_error_keeps_table _ (@Err unit e) db db' clk (OpDeleteBook id) Hok);
      simpl; rewrite ?H; eauto.
  - intros idStr; unfold Handler.StartReading.
    destruct (Atoi idStr) as [id [err|]]; [reflexivity|].
    destruct (StartReading clk id db) as [[b|e] db'] eqn:H; simpl; [congruence|].
    intros _.
    apply (usecase_error_keeps_table _ (@Err Book.t e) db db' clk (OpStartReading id) Hok);
      simpl; rewrite ?H; eauto.
  - intros idStr reqBody; unfold Handler.FinishReading.
    destruct (Atoi idStr) as [id [err|]]; [reflexivity|].
    destruct reqBody as [| |rating]; [|reflexivity|].
    + destruct (FinishReading clk id None db) as [[b|e] db'] eqn:H; simpl; [congruence|].
      intros _.
      apply (usecase_error_keeps_table _ (@Err Book.t e) db db' clk
               (OpFinishReading id None) Hok); simpl; rewrite ?H; eauto.
    + destruct (FinishReading clk id rating db) as [[b|e] db'] eqn:H; simpl; [congruence|].
      intros _.
      apply (usecase_error_keeps_table _ (@Err Book.t e) db db' clk
               (OpFinishReading id rating) Hok); simpl; rewrite ?H; eauto.
Qed.

Lemma error_response_means_no_write_witness :
  snd (Handler.StartReading (at_time 4000) "1" db_reading) = db_reading.
Proof.
  apply (error_response_means_no_write (at_time 4000) db_reading
           (reachable_store_ok _ db_reading_reachable)).
  vm_compute; discriminate.
Defined.
